(** * python-mdp-solver: the 4x3 Gridworld MDP and its two solvers

    A shallow embedding of [src/gridworld.py] and [src/solver.py].

    Numbers.  Python's [float] is IEEE-754 binary64, and so is Rocq's
    primitive [float]: every arithmetic operation and comparison of the
    source is modelled by the primitive operation of the same name, so
    rounding, infinities and NaN behave as they do in the interpreter.  The
    few [int] constants of the source (0, 1, -1) only ever meet floats and
    are embedded as the floats of the same value.

    Containers.  A [dict] is an association list in insertion order (the
    order of [items()]); reading a missing key raises [KeyError].  The state
    [set] is the list of its elements in insertion order; the solvers read
    the previous table only, so their results do not depend on that order.

    Errors.  A call either returns a value or raises an exception. *)

From Stdlib Require Import ZArith List String Bool Lia Permutation.
From Stdlib Require Import PrimFloat FloatAxioms SpecFloat.
Import ListNotations.

Set Warnings "-inexact-float".

Open Scope string_scope.
Open Scope Z_scope.

(** ** Exceptions *)

Inductive exn : Set :=
| KeyError
| ZeroDivisionError
| IndexError
| TypeError.

Inductive result (A : Type) : Type :=
| Ok (a : A)
| Raise (e : exn).

Arguments Ok {A} a.
Arguments Raise {A} e.

Definition bind {A B : Type} (m : result A) (k : A -> result B) : result B :=
  match m with
  | Ok a => k a
  | Raise e => Raise e
  end.

Notation "x <- m ;; k" := (bind m (fun x => k))
  (at level 61, m at next level, right associativity).
Notation "' p <- m ;; k" := (bind m (fun x => let p := x in k))
  (at level 61, p pattern, m at next level, right associativity).

Definition is_ok {A : Type} (m : result A) : bool :=
  match m with Ok _ => true | Raise _ => false end.

(** ** Python numbers *)

(** [a > b], [a < b], [a <= b] on floats: false whenever a NaN is involved. *)
Definition py_gt (a b : float) : bool := PrimFloat.ltb b a.
Definition py_lt (a b : float) : bool := PrimFloat.ltb a b.
Definition py_le (a b : float) : bool := PrimFloat.leb a b.

(** [max(a, b)]: the first argument, unless the second compares greater. *)
Definition py_max2 (a b : float) : float := if py_gt b a then b else a.

(** [max(xs)] for a non-empty list: the running maximum is replaced only by
    an item that compares strictly greater. *)
Definition py_max (x : float) (xs : list float) : float :=
  fold_left py_max2 xs x.

(** [a / b]: float division raises when the divisor is zero (of either sign). *)
Definition py_div (a b : float) : result float :=
  if PrimFloat.eqb b 0%float then Raise ZeroDivisionError else Ok (a / b)%float.

(** [sum(xs)]. *)
Definition py_sum (xs : list float) : float :=
  fold_left PrimFloat.add xs 0%float.

(** ** Dictionaries *)

Section Dict.
Context {K V : Type} (eqb : K -> K -> bool).

Definition dict : Type := list (K * V).

Fixpoint dict_find (d : dict) (k : K) : option V :=
  match d with
  | [] => None
  | (k', v) :: d' => if eqb k k' then Some v else dict_find d' k
  end.

(** [d[k]] *)
Definition dict_get (d : dict) (k : K) : result V :=
  match dict_find d k with
  | Some v => Ok v
  | None => Raise KeyError
  end.

(** [d.get(k, dflt)] *)
Definition dict_get_default (d : dict) (k : K) (dflt : V) : V :=
  match dict_find d k with
  | Some v => v
  | None => dflt
  end.

(** [d[k] = v]: an existing key keeps its position, a new one goes last. *)
Fixpoint dict_set (d : dict) (k : K) (v : V) : dict :=
  match d with
  | [] => [(k, v)]
  | (k', v') :: d' =>
      if eqb k k' then (k', v) :: d' else (k', v') :: dict_set d' k v
  end.

Definition dict_keys (d : dict) : list K := map fst d.
End Dict.

Arguments dict : clear implicits.

(** ** States and actions *)

Definition State : Type := Z * Z.

Definition state_eqb (s t : State) : bool :=
  (fst s =? fst t) && (snd s =? snd t).

Definition mem_state (s : State) (l : list State) : bool :=
  existsb (state_eqb s) l.

(** [range(n)] *)
Definition range (n : Z) : list Z := map Z.of_nat (seq 0 (Z.to_nat n)).

(** An action label; the value passed as an action argument is a label or
    [None]. *)
Definition Action : Type := string.

(** ** gridworld.py *)

Module Gridworld.

Record t : Type := mk {
  height : Z;
  width : Z;
  start_state : State;
  wall_states : list State;
  goal_state : State;
  trap_state : State;
  terminal_states : list State;
  living_penalty : float;
  rewards : dict State float;
  actions : list Action;
  slip_prob : float;
  move_prob : float;
  states : list State
}.

(** [set.add] *)
Definition set_add (s : State) (l : list State) : list State :=
  if mem_state s l then l else l ++ [s].

(** The two nested loops of [__init__] that collect the non-wall cells. *)
Definition build_states (h w : Z) (walls : list State) : list State :=
  fold_left
    (fun acc r =>
       fold_left
         (fun acc c => if mem_state (r, c) walls then acc else set_add (r, c) acc)
         (range w) acc)
    (range h) [].

(** [Gridworld()] *)
Definition init : t :=
  let goal := (0, 3) in
  let trap := (1, 3) in
  let walls := [(1, 1)] in
  {| height := 3;
     width := 4;
     start_state := (2, 0);
     wall_states := walls;
     goal_state := goal;
     trap_state := trap;
     terminal_states := [goal; trap];
     living_penalty := (-0.04)%float;
     rewards := [(goal, 1%float); (trap, (-1)%float)];
     actions := ["North"; "South"; "East"; "West"];
     slip_prob := 0.1%float;
     move_prob := 0.8%float;
     states := build_states 3 4 walls |}.

Section Methods.
Variable self : t.

Definition getStates : list State := states self.

Definition getActions (state : State) : list Action :=
  if mem_state state (terminal_states self) then [] else actions self.

Definition getRewards (state : State) : float :=
  dict_get_default state_eqb (rewards self) state (living_penalty self).

Definition isTerminal (state : State) : bool :=
  mem_state state (terminal_states self).

Definition _check_move (state : State) (move : Z * Z) : State :=
  let next_r := fst state + fst move in
  let next_c := snd state + snd move in
  let next_state := (next_r, next_c) in
  if negb ((0 <=? next_r) && (next_r <? height self))
     || negb ((0 <=? next_c) && (next_c <? width self))
     || mem_state next_state (wall_states self)
  then state
  else next_state.

Definition moves : dict Action (Z * Z) :=
  [("North", (-1, 0)); ("South", (1, 0)); ("East", (0, 1)); ("West", (0, -1))].

Definition slip_left : dict Action Action :=
  [("North", "West"); ("South", "East"); ("East", "North"); ("West", "South")].

Definition slip_right : dict Action Action :=
  [("North", "East"); ("South", "West"); ("East", "South"); ("West", "North")].

(** [d[action]] for a dictionary keyed by labels: [None] is never a key. *)
Definition label_get {V : Type} (d : dict Action V) (action : option Action)
  : result V :=
  match action with
  | Some a => dict_get String.eqb d a
  | None => Raise KeyError
  end.

(** [transitions[k] += p] on a [defaultdict(float)]. *)
Definition add_prob (transitions : dict State float) (k : State) (p : float)
  : dict State float :=
  dict_set state_eqb transitions k
    (dict_get_default state_eqb transitions k 0%float + p)%float.

Definition getTransitions (state : State) (action : option Action)
  : result (list (State * float)) :=
  if isTerminal state then Ok []
  else
    intended_move <- label_get moves action ;;
    left_label <- label_get slip_left action ;;
    left_move <- dict_get String.eqb moves left_label ;;
    right_label <- label_get slip_right action ;;
    right_move <- dict_get String.eqb moves right_label ;;
    let transitions := [] in
    let next_state_intended := _check_move state intended_move in
    let transitions := add_prob transitions next_state_intended (move_prob self) in
    let next_state_left := _check_move state left_move in
    let transitions := add_prob transitions next_state_left (slip_prob self) in
    let next_state_right := _check_move state right_move in
    let transitions := add_prob transitions next_state_right (slip_prob self) in
    Ok transitions.
End Methods.

End Gridworld.


(** ** Values seen through a transition pair

    [getTransitions] hands the solver a list of 2-tuples.  The solver unpacks
    each tuple positionally, so what it calls [prob] and [next_state] is
    whatever sits in the first and in the second slot: a float or a state
    tuple. *)

Inductive value : Type :=
| VFloat (x : float)
| VState (s : State).

(** [U[k]] for a table keyed by states: a float is never equal to a tuple,
    so a float key is always missing. *)
Definition table_get (U : dict State float) (k : value) : result float :=
  match k with
  | VState s => dict_get state_eqb U s
  | VFloat _ => Raise KeyError
  end.

(** [a * u] with [u] a float: a tuple cannot be multiplied by a float. *)
Definition py_mul (a : value) (u : float) : result float :=
  match a with
  | VFloat x => Ok (x * u)%float
  | VState _ => Raise TypeError
  end.

(** The object the solvers receive: anything with these five methods. *)
Record Model : Type := {
  m_getStates : list State;
  m_isTerminal : State -> bool;
  m_getRewards : State -> float;
  m_getActions : State -> list Action;
  m_getTransitions : State -> option Action -> result (list (value * value))
}.

(** A [Gridworld] instance as the solvers see it: [list(transitions.items())]
    yields (key, value) tuples, that is (next_state, probability). *)
Definition gridworld_model (g : Gridworld.t) : Model :=
  {| m_getStates := Gridworld.getStates g;
     m_isTerminal := Gridworld.isTerminal g;
     m_getRewards := Gridworld.getRewards g;
     m_getActions := Gridworld.getActions g;
     m_getTransitions := fun state action =>
       ts <- Gridworld.getTransitions g state action ;;
       Ok (map (fun '(s, p) => (VState s, VFloat p)) ts) |}.

(** ** solver.py *)

(** [random.choice(seq)]: the oracle [draw] stands for the generator; the
    [k]-th call picks position [draw k mod len(seq)]. *)
Definition random_choice {A : Type} (draw : nat -> nat) (k : nat) (l : list A)
  : result A :=
  match l with
  | [] => Raise IndexError
  | _ => match nth_error l (draw k mod List.length l)%nat with
         | Some a => Ok a
         | None => Raise IndexError
         end
  end.

Module Solver.

Definition Table : Type := dict State float.
Definition Policy : Type := dict State (option Action).

Section Algorithms.
Variable gridworld : Model.
Variables (discount : float) (max_iterations : Z) (epsilon : float).

(** [for prob, next_state in ts: q_value += prob * U[next_state]] *)
Fixpoint accumulate (U : Table) (ts : list (value * value)) (q_value : float)
  : result float :=
  match ts with
  | [] => Ok q_value
  | (prob, next_state) :: rest =>
      u <- table_get U next_state ;;
      x <- py_mul prob u ;;
      accumulate U rest (q_value + x)%float
  end.

(** The q-value of one action: [q_value = 0] and the loop above. *)
Definition q_value_of (U : Table) (state : State) (action : option Action)
  : result float :=
  ts <- m_getTransitions gridworld state action ;;
  accumulate U ts 0%float.

(** [action_values], filled by [append] in enumeration order. *)
Fixpoint action_values (U : Table) (state : State) (acts : list Action)
  : result (list float) :=
  match acts with
  | [] => Ok []
  | action :: rest =>
      q <- q_value_of U state (Some action) ;;
      qs <- action_values U state rest ;;
      Ok (q :: qs)
  end.

(** [max(action_values) if action_values else 0] *)
Definition best_of (qs : list float) : float :=
  match qs with
  | [] => 0%float
  | q :: rest => py_max q rest
  end.

(** [{state: 0.0 for state in states}] *)
Definition zero_table (states : list State) : Table :=
  fold_left (fun U s => dict_set state_eqb U s 0%float) states [].

(** One pass of the body of [for state in states] in [value_iteration];
    the accumulator is [(U_new, delta)], [U] is only read. *)
Definition vi_state (U : Table) (acc : Table * float) (state : State)
  : result (Table * float) :=
  let '(U_new, delta) := acc in
  if m_isTerminal gridworld state then
    Ok (dict_set state_eqb U_new state (m_getRewards gridworld state), delta)
  else
    qs <- action_values U state (m_getActions gridworld state) ;;
    let best_q := best_of qs in
    let U_new :=
      dict_set state_eqb U_new state
        (m_getRewards gridworld state + discount * best_q)%float in
    new <- dict_get state_eqb U_new state ;;
    old <- dict_get state_eqb U state ;;
    Ok (U_new, py_max2 delta (abs (new - old))).

Fixpoint for_states {A : Type} (body : A -> State -> result A)
         (states : list State) (acc : A) : result A :=
  match states with
  | [] => Ok acc
  | s :: rest => acc' <- body acc s ;; for_states body rest acc'
  end.

(** One sweep: [U_new = U.copy(); delta = 0; for state in states: ...] *)
Definition vi_sweep (U : Table) : result (Table * float) :=
  for_states (vi_state U) (m_getStates gridworld) (U, 0%float).

(** [epsilon * (1 - discount) / discount] *)
Definition threshold : result float :=
  py_div (epsilon * (1 - discount))%float discount.

(** [for _ in range(max_iterations)] with its [break]. *)
Fixpoint vi_loop (n : nat) (U : Table) : result Table :=
  match n with
  | O => Ok U
  | S n' =>
      '(U_new, delta) <- vi_sweep U ;;
      thr <- threshold ;;
      if py_lt delta thr then Ok U_new else vi_loop n' U_new
  end.

(** The greedy scan [if q_value > best_q: ...] over the actions. *)
Fixpoint greedy_scan (U : Table) (state : State) (acts : list Action)
         (best_action : option Action) (best_q : float)
  : result (option Action) :=
  match acts with
  | [] => Ok best_action
  | action :: rest =>
      q_value <- q_value_of U state (Some action) ;;
      if py_gt q_value best_q
      then greedy_scan U state rest (Some action) q_value
      else greedy_scan U state rest best_action best_q
  end.

Definition greedy (U : Table) (state : State) : result (option Action) :=
  greedy_scan U state (m_getActions gridworld state) None neg_infinity.

(** Body of the policy extraction loop of [value_iteration]. *)
Definition extract_state (U : Table) (policy : Policy) (state : State)
  : result Policy :=
  if m_isTerminal gridworld state then
    Ok (dict_set state_eqb policy state None)
  else
    best_action <- greedy U state ;;
    Ok (dict_set state_eqb policy state best_action).

Definition value_iteration : result (Policy * Table) :=
  let states := m_getStates gridworld in
  let U := zero_table states in
  U <- vi_loop (Z.to_nat max_iterations) U ;;
  policy <- for_states (extract_state U) states [] ;;
  Ok (policy, U).
(** *** policy_iteration *)

Variable draw : nat -> nat.

(** Body of the initialisation loop; [k] counts the calls made to
    [random.choice] so far. *)
Definition init_state (acc : Policy * nat) (state : State)
  : result (Policy * nat) :=
  let '(policy, k) := acc in
  if m_isTerminal gridworld state then
    Ok (dict_set state_eqb policy state None, k)
  else
    a <- random_choice draw k (m_getActions gridworld state) ;;
    Ok (dict_set state_eqb policy state (Some a), S k).

Definition init_policy : result Policy :=
  '(policy, _) <- for_states init_state (m_getStates gridworld) ([], O) ;;
  Ok policy.

(** Body of the evaluation sweep: the action is [policy[state]]. *)
Definition eval_state (policy : Policy) (U : Table) (acc : Table * float)
           (state : State) : result (Table * float) :=
  let '(U_new, delta) := acc in
  if m_isTerminal gridworld state then
    Ok (dict_set state_eqb U_new state (m_getRewards gridworld state), delta)
  else
    action <- dict_get state_eqb policy state ;;
    q_value <- q_value_of U state action ;;
    let U_new :=
      dict_set state_eqb U_new state
        (m_getRewards gridworld state + discount * q_value)%float in
    new <- dict_get state_eqb U_new state ;;
    old <- dict_get state_eqb U state ;;
    Ok (U_new, py_max2 delta (abs (new - old))).

Definition eval_sweep (policy : Policy) (U : Table) : result (Table * float) :=
  for_states (eval_state policy U) (m_getStates gridworld) (U, 0%float).

(** The inner [for _ in range(max_iterations)] with its [break]. *)
Fixpoint eval_loop (policy : Policy) (n : nat) (U : Table) : result Table :=
  match n with
  | O => Ok U
  | S n' =>
      '(U_new, delta) <- eval_sweep policy U ;;
      thr <- threshold ;;
      if py_lt delta thr then Ok U_new else eval_loop policy n' U_new
  end.

(** [old_action != best_action] *)
Definition action_eqb (a b : option Action) : bool :=
  match a, b with
  | None, None => true
  | Some x, Some y => String.eqb x y
  | _, _ => false
  end.

(** Body of the improvement loop; the accumulator is
    [(policy, policy_stable)] and the policy is updated in place. *)
Definition improve_state (U : Table) (acc : Policy * bool) (state : State)
  : result (Policy * bool) :=
  let '(policy, policy_stable) := acc in
  if m_isTerminal gridworld state then Ok (policy, policy_stable)
  else
    old_action <- dict_get state_eqb policy state ;;
    best_action <- greedy U state ;;
    let policy := dict_set state_eqb policy state best_action in
    if negb (action_eqb old_action best_action)
    then Ok (policy, false)
    else Ok (policy, policy_stable).

Definition improve (U : Table) (policy : Policy) : result (Policy * bool) :=
  for_states (improve_state U) (m_getStates gridworld) (policy, true).

(** The outer [for _ in range(max_iterations)] with its [break]. *)
Fixpoint pi_loop (n : nat) (policy : Policy) (U : Table)
  : result (Policy * Table) :=
  match n with
  | O => Ok (policy, U)
  | S n' =>
      U <- eval_loop policy (Z.to_nat max_iterations) U ;;
      '(policy, policy_stable) <- improve U policy ;;
      if policy_stable then Ok (policy, U) else pi_loop n' policy U
  end.

Definition policy_iteration : result (Policy * Table) :=
  let states := m_getStates gridworld in
  policy <- init_policy ;;
  let U := zero_table states in
  pi_loop (Z.to_nat max_iterations) policy U.
End Algorithms.

End Solver.

(** ** The reference scenario *)

(** [Gridworld()] as handed to the solvers by [main]. *)
Definition reference : Model := gridworld_model Gridworld.init.

(** Python leaves the iteration order of a [set] unspecified.  [reorder g l]
    is the instance [g] whose state set is enumerated in the order [l], and
    [ordered l] is the reference grid seen in that order; [reference] is the
    row-major case. *)
Definition reorder (g : Gridworld.t) (l : list State) : Gridworld.t :=
  {| Gridworld.height := Gridworld.height g;
     Gridworld.width := Gridworld.width g;
     Gridworld.start_state := Gridworld.start_state g;
     Gridworld.wall_states := Gridworld.wall_states g;
     Gridworld.goal_state := Gridworld.goal_state g;
     Gridworld.trap_state := Gridworld.trap_state g;
     Gridworld.terminal_states := Gridworld.terminal_states g;
     Gridworld.living_penalty := Gridworld.living_penalty g;
     Gridworld.rewards := Gridworld.rewards g;
     Gridworld.actions := Gridworld.actions g;
     Gridworld.slip_prob := Gridworld.slip_prob g;
     Gridworld.move_prob := Gridworld.move_prob g;
     Gridworld.states := l |}.

Definition ordered (l : list State) : Model :=
  gridworld_model (reorder Gridworld.init l).

(** [l] lists the states of the reference grid, each once, in some order. *)
Definition enumerates (l : list State) : Prop :=
  Permutation (Gridworld.getStates Gridworld.init) l.

(** A model that keeps the promise of [getTransitions]'s docstring, "a list
    of (probability, next_state) tuples": the reference grid with every
    transition pair in the documented order.  It is used to exercise the
    solvers past their first sweep. *)
Definition documented (g : Gridworld.t) : Model :=
  {| m_getStates := Gridworld.getStates g;
     m_isTerminal := Gridworld.isTerminal g;
     m_getRewards := Gridworld.getRewards g;
     m_getActions := Gridworld.getActions g;
     m_getTransitions := fun state action =>
       ts <- Gridworld.getTransitions g state action ;;
       Ok (map (fun '(s, p) => (VFloat p, VState s)) ts) |}.

(** ** The transition distribution, as the specification words it *)

Module TransitionSpec.

(** The intended direction of an action, as a (row, column) offset; rows
    grow southwards. *)
Definition heading (a : Action) : option (Z * Z) :=
  if String.eqb a "North" then Some (-1, 0)
  else if String.eqb a "South" then Some (1, 0)
  else if String.eqb a "East" then Some (0, 1)
  else if String.eqb a "West" then Some (0, -1)
  else None.

(** Quarter turns of an offset, counter-clockwise and clockwise as seen on
    the printed grid. *)
Definition turn_left (d : Z * Z) : Z * Z := (- snd d, fst d).
Definition turn_right (d : Z * Z) : Z * Z := (snd d, - fst d).

(** A candidate move that leaves the grid or enters the wall keeps the
    agent where it is. *)
Definition resolve (g : Gridworld.t) (s : State) (d : Z * Z) : State :=
  let target := (fst s + fst d, snd s + snd d) in
  if mem_state target (Gridworld.getStates g) then target else s.

(** The three weighted candidates: intended, left slip, right slip. *)
Definition candidates (g : Gridworld.t) (s : State) (d : Z * Z)
  : list (State * float) :=
  [ (resolve g s d, 0.8%float);
    (resolve g s (turn_left d), 0.1%float);
    (resolve g s (turn_right d), 0.1%float) ].

(** Total weight of the candidates that land on [t]. *)
Definition mass (cs : list (State * float)) (t : State) : float :=
  py_sum (map snd (filter (fun c => state_eqb (fst c) t) cs)).

(** The landing states, each listed once, in order of first appearance. *)
Fixpoint distinct (seen : list State) (l : list State) : list State :=
  match l with
  | [] => []
  | s :: rest =>
      if mem_state s seen then distinct seen rest
      else s :: distinct (s :: seen) rest
  end.

Definition distribution (g : Gridworld.t) (s : State) (a : Action)
  : option (list (State * float)) :=
  match heading a with
  | None => None
  | Some d =>
      let cs := candidates g s d in
      Some (map (fun t => (t, mass cs t)) (distinct [] (map fst cs)))
  end.

(** A well-formed distribution over the states of [g]. *)
Definition well_formed (g : Gridworld.t) (ts : list (State * float)) : bool :=
  forallb (fun t => mem_state (fst t) (Gridworld.getStates g)) ts
  && forallb (fun t => py_le 0%float (snd t)) ts
  && forallb (fun i =>
       forallb (fun j => Nat.eqb i j
                         || negb (state_eqb (fst (nth i ts ((0,0),0%float)))
                                            (fst (nth j ts ((0,0),0%float)))))
               (seq 0 (List.length ts)))
       (seq 0 (List.length ts))
  && py_le (abs (py_sum (map snd ts) - 1)%float) 1e-9%float.

End TransitionSpec.

(** An action argument that is one of the labels of [self.actions]. *)
Definition known_label (g : Gridworld.t) (action : option Action) : bool :=
  match action with
  | Some a => existsb (String.eqb a) (Gridworld.actions g)
  | None => false
  end.

(** [U[s]] read as a number, for tables in which [s] is present. *)
Definition value_at (U : Solver.Table) (s : State) : float :=
  dict_get_default state_eqb U s 0%float.


(** The number a value-iteration sweep writes for [state]: a function of the
    previous table [U] only. *)
Definition backup (M : Model) (discount : float) (U : Solver.Table) (state : State)
  : result float :=
  if m_isTerminal M state then Ok (m_getRewards M state)
  else
    qs <- Solver.action_values M U state (m_getActions M state) ;;
    Ok (m_getRewards M state + discount * Solver.best_of qs)%float.

(** The states whose change enters [delta]. *)
Definition non_terminal (M : Model) (states : list State) : list State :=
  filter (fun s => negb (m_isTerminal M s)) states.

(** [abs(U_new[s] - U[s])] *)
Definition change (U U_new : Solver.Table) (s : State) : float :=
  abs (value_at U_new s - value_at U s).

(** A cell inside the rectangle and not a wall. *)
Definition open_cell (g : Gridworld.t) (t : State) : bool :=
  (0 <=? fst t) && (fst t <? Gridworld.height g)
  && (0 <=? snd t) && (snd t <? Gridworld.width g)
  && negb (mem_state t (Gridworld.wall_states g)).

(** The state set of [g] is the one the constructor loops build from its
    dimensions and walls. *)
Definition constructed (g : Gridworld.t) : Prop :=
  Gridworld.states g
  = Gridworld.build_states (Gridworld.height g) (Gridworld.width g)
      (Gridworld.wall_states g).

(** The labels that are keys of the three direction tables. *)
Definition direction_label (a : Action) : bool :=
  existsb (String.eqb a) ["North"; "South"; "East"; "West"].

(** The model [M] with its states enumerated in the order [l]. *)
Definition with_states (M : Model) (l : list State) : Model :=
  {| m_getStates := l;
     m_isTerminal := m_isTerminal M;
     m_getRewards := m_getRewards M;
     m_getActions := m_getActions M;
     m_getTransitions := m_getTransitions M |}.

(** What a visited state must offer for a sweep of [value_iteration] over the
    table [U] to get past it: its backup can be computed and, unless it is
    terminal, it has an entry in [U]. *)
Definition sweepable (M : Model) (discount : float) (U : Solver.Table)
           (s : State) : Prop :=
  (exists v, backup M discount U s = Ok v)
  /\ (m_isTerminal M s = false -> exists old, dict_find state_eqb U s = Some old).

(** The number an evaluation sweep of [policy_iteration] writes for [state]:
    a function of the policy and of the previous table [U] only. *)
Definition eval_backup (M : Model) (discount : float) (policy : Solver.Policy)
           (U : Solver.Table) (state : State) : result float :=
  if m_isTerminal M state then Ok (m_getRewards M state)
  else
    action <- dict_get state_eqb policy state ;;
    q_value <- Solver.q_value_of M U state action ;;
    Ok (m_getRewards M state + discount * q_value)%float.

(** A state the initialisation loop of [policy_iteration] can handle. *)
Definition choosable (M : Model) (s : State) : bool :=
  m_isTerminal M s
  || match m_getActions M s with [] => false | _ :: _ => true end.

(** ** main.py *)

Module Main.

(** The symbol table of [print_policy]; its keys are the four labels and
    [None]. *)
Definition action_symbols : dict (option Action) string :=
  [(Some "North", "^"); (Some "South", "v"); (Some "East", ">");
   (Some "West", "<"); (None, ".")].

(** One cell of the policy grid: the [if/elif/else] chain of the inner
    loop.  [policy.get(state)] is [None] for a missing key. *)
Definition policy_cell (policy : Solver.Policy) (gridworld : Gridworld.t)
           (state : State) : string :=
  if mem_state state (Gridworld.wall_states gridworld) then "  #  "
  else if state_eqb state (Gridworld.goal_state gridworld) then "  G  "
  else if state_eqb state (Gridworld.trap_state gridworld) then "  T  "
  else
    let action := dict_get_default state_eqb policy state None in
    let symbol :=
      dict_get_default Solver.action_eqb action_symbols action "?" in
    "  " ++ symbol ++ "  ".

(** [row_str] after the inner loop over the columns. *)
Definition policy_row (policy : Solver.Policy) (gridworld : Gridworld.t)
           (r : Z) : string :=
  fold_left (fun row_str c => row_str ++ policy_cell policy gridworld (r, c))
            (range (Gridworld.width gridworld)) "".

(** The lines [print_policy] writes, first line first; each row is followed
    by the empty line of the bare [print()]. *)
Definition print_policy (policy : Solver.Policy) (gridworld : Gridworld.t)
  : list string :=
  fold_left (fun out r => (out ++ [policy_row policy gridworld r; ""])%list)
            (range (Gridworld.height gridworld)) ["Optimal Policy:"].

Section Formatting.
(** The rendering of one number by the format specification [" 6.2f"]. *)
Variable format_utility : float -> string.

Definition utility_cell (utilities : Solver.Table) (gridworld : Gridworld.t)
           (state : State) : string :=
  if mem_state state (Gridworld.wall_states gridworld) then "    #    "
  else
    let utility := dict_get_default state_eqb utilities state 0%float in
    " " ++ format_utility utility ++ " ".

Definition utility_row (utilities : Solver.Table) (gridworld : Gridworld.t)
           (r : Z) : string :=
  fold_left (fun row_str c => row_str ++ utility_cell utilities gridworld (r, c))
            (range (Gridworld.width gridworld)) "".

Definition print_utilities (utilities : Solver.Table) (gridworld : Gridworld.t)
  : list string :=
  fold_left (fun out r => (out ++ [utility_row utilities gridworld r; ""])%list)
            (range (Gridworld.height gridworld)) ["Optimal Utilities:"].

(** [args.algorithm] once [argparse] has accepted it: one of the two
    [choices]. *)
Inductive algorithm : Type := value_iteration | policy_iteration.

Definition algorithm_name (a : algorithm) : string :=
  match a with
  | value_iteration => "value_iteration"
  | policy_iteration => "policy_iteration"
  end.

(** ["-" * 30] *)
Definition rule : string := "------------------------------".

(** [main] from the line that follows the construction of the environment:
    the lines written, and how the call ends.  The solvers are called with
    their default parameters. *)
Definition run (gridworld : Gridworld.t) (a : algorithm) (draw : nat -> nat)
  : list string * result unit :=
  let out := ["Running " ++ algorithm_name a ++ "..."] in
  let solved :=
    match a with
    | value_iteration =>
        Solver.value_iteration (gridworld_model gridworld)
          0.9%float 100 1e-4%float
    | policy_iteration =>
        Solver.policy_iteration (gridworld_model gridworld)
          0.9%float 100 1e-4%float draw
    end in
  match solved with
  | Raise e => (out, Raise e)
  | Ok (policy, utilities) =>
      ((out ++ [rule] ++ print_utilities utilities gridworld
            ++ [rule] ++ print_policy policy gridworld ++ [rule])%list,
       Ok tt)
  end.

(** [main()] for the parsed choice [a]. *)
Definition main (a : algorithm) (draw : nat -> nat)
  : list string * result unit :=
  run Gridworld.init a draw.
End Formatting.

End Main.

(** ** How a call ends *)

(** [None] for a normal return, the exception otherwise. *)
Definition outcome {A : Type} (r : result A) : option exn :=
  match r with
  | Ok _ => None
  | Raise e => Some e
  end.

(** Two calls that end alike: both return, with results related by [R], or
    both raise the same exception. *)
Definition agree {A B : Type} (R : A -> B -> Prop)
           (r : result A) (r' : result B) : Prop :=
  match r, r' with
  | Ok a, Ok b => R a b
  | Raise e, Raise e' => e = e'
  | _, _ => False
  end.

(** Two dictionaries with the same keys. *)
Definition same_keys {V W : Type} (d : dict State V) (d' : dict State W) : Prop :=
  forall s, dict_find state_eqb d s = None <-> dict_find state_eqb d' s = None.

(** A table with an entry for every state of the model. *)
Definition covers (M : Model) (U : Solver.Table) : Prop :=
  forall s, In s (m_getStates M) -> dict_find state_eqb U s <> None.

(** * Properties *)

(** ** Dictionaries keyed by states *)

Lemma state_eqb_eq (s t : State) : state_eqb s t = true <-> s = t.
Proof.
  destruct s as [r c], t as [r' c']; unfold state_eqb; simpl.
  rewrite andb_true_iff, !Z.eqb_eq. split.
  - intros [-> ->]; reflexivity.
  - intros H; inversion H; auto.
Qed.

Lemma state_eqb_refl (s : State) : state_eqb s s = true.
Proof. apply state_eqb_eq; reflexivity. Qed.

Lemma state_eqb_neq (s t : State) : state_eqb s t = false <-> s <> t.
Proof.
  rewrite <- state_eqb_eq. destruct (state_eqb s t); split; congruence.
Qed.

Lemma mem_state_In (s : State) (l : list State) :
  mem_state s l = true <-> In s l.
Proof.
  unfold mem_state. rewrite existsb_exists. split.
  - intros [t [Ht E]]. apply state_eqb_eq in E. subst; assumption.
  - intros H. exists s. split; [assumption | apply state_eqb_refl].
Qed.

Section DictFacts.
Context {V : Type}.
Implicit Types (d : dict State V) (s t : State) (v : V).

Lemma dict_find_set_same d s v :
  dict_find state_eqb (dict_set state_eqb d s v) s = Some v.
Proof.
  induction d as [| [k w] d IH]; simpl.
  - rewrite state_eqb_refl; reflexivity.
  - destruct (state_eqb s k) eqn:E; simpl; rewrite E; auto.
Qed.

Lemma dict_find_set_other d s t v :
  s <> t ->
  dict_find state_eqb (dict_set state_eqb d s v) t = dict_find state_eqb d t.
Proof.
  intros Hne. induction d as [| [k w] d IH]; simpl.
  - assert (E : state_eqb t s = false) by (apply state_eqb_neq; congruence).
    rewrite E; reflexivity.
  - destruct (state_eqb s k) eqn:E; simpl.
    + apply state_eqb_eq in E; subst k.
      assert (E' : state_eqb t s = false) by (apply state_eqb_neq; congruence).
      rewrite E'; reflexivity.
    + destruct (state_eqb t k); auto.
Qed.

Lemma dict_get_set_same d s v :
  dict_get state_eqb (dict_set state_eqb d s v) s = Ok v.
Proof. unfold dict_get; rewrite dict_find_set_same; reflexivity. Qed.

Lemma dict_get_set_other d s t v :
  s <> t ->
  dict_get state_eqb (dict_set state_eqb d s v) t = dict_get state_eqb d t.
Proof. intros H; unfold dict_get; rewrite dict_find_set_other; auto. Qed.
End DictFacts.

(** ** The environment model *)

Ltac each_state H :=
  vm_compute in H;
  repeat (destruct H as [H | H]; [subst | ]);
  try contradiction.

(** C1. For every non-terminal state of the reference grid and every action
    available there, [getTransitions] returns the distribution described by
    the specification: the intended move with weight 0.8 and the two slips
    with weight 0.1 each, a blocked move staying in place, equal landing
    states merged into one entry.  The entries come as (next_state,
    probability); every next state is a state of the model, every weight is
    non-negative, the next states are pairwise distinct and the weights sum
    to 1.0 within 1e-9. *)
Theorem getTransitions_is_the_slip_distribution :
  forall (s : State) (a : Action),
    In s (Gridworld.getStates Gridworld.init) ->
    Gridworld.isTerminal Gridworld.init s = false ->
    In a (Gridworld.getActions Gridworld.init s) ->
    exists ts,
      Gridworld.getTransitions Gridworld.init s (Some a) = Ok ts
      /\ TransitionSpec.distribution Gridworld.init s a = Some ts
      /\ TransitionSpec.well_formed Gridworld.init ts = true.
Proof.
  intros s a Hs Ht Ha.
  each_state Hs; try discriminate Ht; clear Ht;
    each_state Ha;
    eexists; (split; [vm_compute; reflexivity | split; vm_compute; reflexivity]).
Qed.

Lemma getTransitions_is_the_slip_distribution_witness :
  exists ts,
    Gridworld.getTransitions Gridworld.init (0, 0) (Some "West") = Ok ts
    /\ TransitionSpec.distribution Gridworld.init (0, 0) "West" = Some ts
    /\ TransitionSpec.well_formed Gridworld.init ts = true.
Proof.
  apply (getTransitions_is_the_slip_distribution (0, 0) "West").
  - vm_compute; auto.
  - reflexivity.
  - vm_compute; auto 10.
Defined.

Lemma add_prob_nonempty (ts : dict State float) (k : State) (p : float) :
  Gridworld.add_prob ts k p <> [].
Proof.
  unfold Gridworld.add_prob.
  generalize (dict_get_default state_eqb ts k 0 + p)%float as v.
  intros v. destruct ts as [| [k' w] ts]; simpl; [discriminate |].
  destruct (state_eqb k k'); discriminate.
Qed.

(** C8, counterexample.  The wall cell (1,1) and the off-grid cell (7,7) are
    not states of the model, yet [getActions] answers with the four actions
    and [getTransitions] with an ordinary distribution; and a terminal state
    accepts an action that is not in its (empty) action set. *)
Lemma undefined_state_is_answered :
  mem_state (1, 1) (Gridworld.getStates Gridworld.init) = false
  /\ mem_state (7, 7) (Gridworld.getStates Gridworld.init) = false
  /\ Gridworld.getActions Gridworld.init (1, 1) = ["North"; "South"; "East"; "West"]
  /\ Gridworld.getActions Gridworld.init (7, 7) = ["North"; "South"; "East"; "West"]
  /\ Gridworld.getTransitions Gridworld.init (1, 1) (Some "North")
     = Ok [((0, 1), 0.8%float); ((1, 0), 0.1%float); ((1, 2), 0.1%float)]
  /\ Gridworld.getTransitions Gridworld.init (7, 7) (Some "North")
     = Ok [((7, 7), 1%float)]
  /\ Gridworld.getActions Gridworld.init (0, 3) = []
  /\ Gridworld.getTransitions Gridworld.init (0, 3) (Some "North") = Ok [].
Proof. repeat split; vm_compute; reflexivity. Qed.

(** C8, amended.  On the reference grid neither query checks that the state
    is a state of the model.  [getActions] never fails: it returns the empty
    list for a terminal state and the four actions for any other coordinate.
    [getTransitions] returns the empty list for a terminal state whatever the
    action; otherwise it returns a list exactly when the action is one of the
    four labels, and raises [KeyError] when it is anything else. *)
Theorem getTransitions_fails_only_on_unknown_label :
  forall (s : State) (a : option Action),
    Gridworld.getActions Gridworld.init s
    = (if Gridworld.isTerminal Gridworld.init s then []
       else ["North"; "South"; "East"; "West"])
    /\ is_ok (Gridworld.getTransitions Gridworld.init s a)
       = (Gridworld.isTerminal Gridworld.init s || known_label Gridworld.init a)
    /\ (if Gridworld.isTerminal Gridworld.init s
        then Gridworld.getTransitions Gridworld.init s a = Ok []
        else if known_label Gridworld.init a
             then exists ts, Gridworld.getTransitions Gridworld.init s a = Ok ts
                             /\ ts <> []
             else Gridworld.getTransitions Gridworld.init s a = Raise KeyError).
Proof.
  intros s a.
  split; [reflexivity |].
  unfold Gridworld.getTransitions.
  destruct (Gridworld.isTerminal Gridworld.init s); [split; reflexivity |].
  destruct a as [l |]; [| split; reflexivity].
  cbn [orb known_label Gridworld.actions Gridworld.init existsb].
  unfold Gridworld.label_get, dict_get, Gridworld.moves, Gridworld.slip_left,
    Gridworld.slip_right.
  cbn [dict_find].
  destruct (String.eqb l "North") eqn:E1;
    [apply String.eqb_eq in E1; subst l |
     destruct (String.eqb l "South") eqn:E2;
     [apply String.eqb_eq in E2; subst l |
      destruct (String.eqb l "East") eqn:E3;
      [apply String.eqb_eq in E3; subst l |
       destruct (String.eqb l "West") eqn:E4;
       [apply String.eqb_eq in E4; subst l | split; reflexivity]]]];
    (split; [reflexivity |]);
    cbn [orb]; eexists; (split; [reflexivity | apply add_prob_nonempty]).
Qed.

(** ** Loops over the states *)

Lemma for_states_cons {A : Type} (body : A -> State -> result A)
      (s : State) (rest : list State) (acc : A) :
  Solver.for_states body (s :: rest) acc
  = (acc' <- body acc s ;; Solver.for_states body rest acc').
Proof. reflexivity. Qed.

Lemma for_states_raise_first {A : Type} (body : A -> State -> result A)
      (s : State) (rest : list State) (acc : A) (e : exn) :
  body acc s = Raise e ->
  Solver.for_states body (s :: rest) acc = Raise e.
Proof. intros H. rewrite for_states_cons, H. reflexivity. Qed.

Lemma bind_ok_inv {A B : Type} (m : result A) (k : A -> result B) (b : B) :
  bind m k = Ok b -> exists a, m = Ok a /\ k a = Ok b.
Proof. destruct m as [a | e]; simpl; [eauto | discriminate]. Qed.

(** ** A transition pair in (next_state, probability) order stops the solver *)

(** The inner loop reads [U[next_state]] with the second slot of the pair;
    when that slot holds the probability the lookup fails at once. *)
Lemma accumulate_swapped_pair (U : Solver.Table) (s : State) (p : float)
      (rest : list (value * value)) (q : float) :
  Solver.accumulate U ((VState s, VFloat p) :: rest) q = Raise KeyError.
Proof. reflexivity. Qed.

Lemma getTransitions_nonempty (s : State) (l : Action) :
  Gridworld.isTerminal Gridworld.init s = false ->
  In l (Gridworld.actions Gridworld.init) ->
  exists t ts, Gridworld.getTransitions Gridworld.init s (Some l) = Ok (t :: ts).
Proof.
  intros Ht Hl. unfold Gridworld.getTransitions. rewrite Ht.
  assert (N : forall d k p, exists t ts, Gridworld.add_prob d k p = t :: ts).
  { intros d k p. destruct (Gridworld.add_prob d k p) eqn:E; [| eauto].
    exfalso. exact (add_prob_nonempty _ _ _ E). }
  simpl in Hl.
  destruct Hl as [<- | [<- | [<- | [<- | []]]]];
    cbn -[Gridworld.add_prob Gridworld._check_move];
    match goal with
    | |- exists t ts, Ok (Gridworld.add_prob ?d ?k ?p) = _ =>
        destruct (N d k p) as (t & ts & ->); eauto
    end.
Qed.

Lemma ordered_reference :
  ordered (Gridworld.getStates Gridworld.init) = reference.
Proof. reflexivity. Qed.

Lemma enumerates_reference : enumerates (m_getStates reference).
Proof. apply Permutation_refl. Qed.

Lemma enumerates_has_non_terminal (l : list State) :
  enumerates l ->
  exists s, In s l /\ Gridworld.isTerminal Gridworld.init s = false.
Proof.
  intros H. exists (0, 0). split; [| reflexivity].
  eapply Permutation_in; [exact H |]. vm_compute. auto.
Qed.

Section AnyOrder.
Variable l : list State.

Lemma ordered_states : m_getStates (ordered l) = l.
Proof. reflexivity. Qed.

Lemma ordered_terminal (s : State) :
  m_isTerminal (ordered l) s = Gridworld.isTerminal Gridworld.init s.
Proof. reflexivity. Qed.

Lemma ordered_actions (s : State) :
  Gridworld.isTerminal Gridworld.init s = false ->
  m_getActions (ordered l) s = ["North"; "South"; "East"; "West"].
Proof.
  intros Ht. cbn. unfold Gridworld.getActions.
  unfold Gridworld.isTerminal in Ht. cbn in *. rewrite Ht. reflexivity.
Qed.

(** Whatever the table, the q-value of an available action of a non-terminal
    cell of the reference grid cannot be computed. *)
Lemma ordered_q_value_fails (U : Solver.Table) (s : State) (a : Action) :
  Gridworld.isTerminal Gridworld.init s = false ->
  In a (Gridworld.actions Gridworld.init) ->
  Solver.q_value_of (ordered l) U s (Some a) = Raise KeyError.
Proof.
  intros Ht Ha. unfold Solver.q_value_of, ordered, gridworld_model.
  cbn [m_getTransitions].
  change (Gridworld.getTransitions (reorder Gridworld.init l) s (Some a))
    with (Gridworld.getTransitions Gridworld.init s (Some a)).
  destruct (getTransitions_nonempty s a Ht Ha) as ([t p] & ts & ->).
  reflexivity.
Qed.

Lemma ordered_vi_state (discount : float) (U : Solver.Table)
      (acc : Solver.Table * float) (s : State) :
  if Gridworld.isTerminal Gridworld.init s
  then exists acc', Solver.vi_state (ordered l) discount U acc s = Ok acc'
  else Solver.vi_state (ordered l) discount U acc s = Raise KeyError.
Proof.
  unfold Solver.vi_state. destruct acc as [U_new delta].
  rewrite ordered_terminal.
  destruct (Gridworld.isTerminal Gridworld.init s) eqn:Ht; [eauto |].
  rewrite (ordered_actions s Ht). cbn [Solver.action_values].
  rewrite ordered_q_value_fails; [reflexivity | assumption | simpl; auto].
Qed.

Lemma ordered_greedy_fails (U : Solver.Table) (s : State) :
  Gridworld.isTerminal Gridworld.init s = false ->
  Solver.greedy (ordered l) U s = Raise KeyError.
Proof.
  intros Ht. unfold Solver.greedy. rewrite (ordered_actions s Ht).
  cbn [Solver.greedy_scan].
  rewrite ordered_q_value_fails; [reflexivity | assumption | simpl; auto].
Qed.

Lemma ordered_extract_state (U : Solver.Table) (policy : Solver.Policy)
      (s : State) :
  if Gridworld.isTerminal Gridworld.init s
  then exists policy', Solver.extract_state (ordered l) U policy s = Ok policy'
  else Solver.extract_state (ordered l) U policy s = Raise KeyError.
Proof.
  unfold Solver.extract_state. rewrite ordered_terminal.
  destruct (Gridworld.isTerminal Gridworld.init s) eqn:Ht; [eauto |].
  rewrite ordered_greedy_fails by assumption. reflexivity.
Qed.
End AnyOrder.

(** A loop whose body succeeds on the states satisfying [P] and raises [e] on
    the others raises [e] as soon as the list holds one of the others,
    wherever it stands. *)
Lemma for_states_raise {A : Type} (body : A -> State -> result A)
      (P : State -> bool) (e : exn) :
  forall (l : list State),
    (forall acc s, In s l ->
       if P s then exists acc', body acc s = Ok acc' else body acc s = Raise e) ->
    (exists s, In s l /\ P s = false) ->
    forall acc, Solver.for_states body l acc = Raise e.
Proof.
  induction l as [| x l IH]; intros Hbody (s & Hs & HP) acc.
  - contradiction.
  - rewrite for_states_cons.
    pose proof (Hbody acc x (or_introl eq_refl)) as Hx.
    destruct (P x) eqn:Px.
    + destruct Hx as (acc' & ->). cbn [bind]. apply IH.
      * intros acc0 s0 H0. apply Hbody. right; assumption.
      * exists s. split; [| assumption].
        destruct Hs as [<- | Hs]; [congruence | assumption].
    + rewrite Hx. reflexivity.
Qed.

Lemma ordered_vi_sweep_fails (l : list State) (discount : float)
      (U : Solver.Table) :
  (exists s, In s l /\ Gridworld.isTerminal Gridworld.init s = false) ->
  Solver.vi_sweep (ordered l) discount U = Raise KeyError.
Proof.
  intros H. unfold Solver.vi_sweep. rewrite ordered_states.
  apply (for_states_raise _ (Gridworld.isTerminal Gridworld.init)); [| exact H].
  intros acc s _. apply ordered_vi_state.
Qed.

Lemma ordered_extraction_fails (l : list State) (U : Solver.Table) :
  (exists s, In s l /\ Gridworld.isTerminal Gridworld.init s = false) ->
  Solver.for_states (Solver.extract_state (ordered l) U) (m_getStates (ordered l)) []
  = Raise KeyError.
Proof.
  intros H. rewrite ordered_states.
  apply (for_states_raise _ (Gridworld.isTerminal Gridworld.init)); [| exact H].
  intros acc s _. apply ordered_extract_state.
Qed.

Lemma ordered_value_iteration_fails (l : list State) (discount : float)
      (n : Z) (epsilon : float) :
  enumerates l ->
  Solver.value_iteration (ordered l) discount n epsilon = Raise KeyError.
Proof.
  intros H. apply enumerates_has_non_terminal in H.
  unfold Solver.value_iteration.
  destruct (Z.to_nat n) as [| k]; cbn [Solver.vi_loop bind].
  - rewrite ordered_extraction_fails by exact H. reflexivity.
  - rewrite ordered_vi_sweep_fails by exact H. reflexivity.
Qed.

(** ** The initial policy of policy_iteration *)

Lemma random_choice_in {A : Type} (draw : nat -> nat) (k : nat) (l : list A) :
  l <> [] -> exists a, random_choice draw k l = Ok a /\ In a l.
Proof.
  intros Hl. destruct l as [| x l]; [contradiction |].
  unfold random_choice.
  destruct (nth_error (x :: l) (draw k mod List.length (x :: l))) as [a |] eqn:E.
  - exists a. split; [reflexivity | eapply nth_error_In; eassumption].
  - apply nth_error_None in E.
    assert (draw k mod List.length (x :: l) < List.length (x :: l))%nat
      by (apply Nat.mod_upper_bound; simpl; discriminate).
    lia.
Qed.

Section InitialPolicy.
Variable M : Model.
Variable draw : nat -> nat.

(** Every state visited by the initialisation loop ends up with an entry: no
    action for a terminal state, one of its own actions otherwise; entries of
    states the loop does not visit are left alone. *)
Lemma init_loop_spec :
  forall (l : list State) (acc acc' : Solver.Policy * nat),
    Solver.for_states (Solver.init_state M draw) l acc = Ok acc' ->
    (forall s, In s l -> m_isTerminal M s = false ->
               exists a, In a (m_getActions M s)
                         /\ dict_find state_eqb (fst acc') s = Some (Some a))
    /\ (forall s, In s l -> m_isTerminal M s = true ->
                  dict_find state_eqb (fst acc') s = Some None)
    /\ (forall s, ~ In s l ->
                  dict_find state_eqb (fst acc') s = dict_find state_eqb (fst acc) s).
Proof.
  induction l as [| x l IH]; intros acc acc' H.
  - inversion H; subst. repeat split; intros s Hs; try contradiction; reflexivity.
  - rewrite for_states_cons in H. apply bind_ok_inv in H.
    destruct H as (acc1 & H1 & H2).
    destruct (IH _ _ H2) as (IHa & IHb & IHc).
    destruct acc as [policy k]. unfold Solver.init_state in H1.
    assert (Hx : (m_isTerminal M x = false ->
                  exists a, In a (m_getActions M x)
                            /\ dict_find state_eqb (fst acc1) x = Some (Some a))
                 /\ (m_isTerminal M x = true ->
                     dict_find state_eqb (fst acc1) x = Some None)
                 /\ (forall s, s <> x ->
                       dict_find state_eqb (fst acc1) s
                       = dict_find state_eqb policy s)).
    { destruct (m_isTerminal M x).
      - inversion H1; subst; simpl. repeat split; try discriminate.
        + intros _. apply dict_find_set_same.
        + intros s Hs. apply dict_find_set_other; congruence.
      - apply bind_ok_inv in H1. destruct H1 as (a & Ha & H1).
        inversion H1; subst; simpl. repeat split; try discriminate.
        + intros _. exists a. split; [| apply dict_find_set_same].
          unfold random_choice in Ha.
          destruct (m_getActions M x) as [| y ys] eqn:E; [discriminate |].
          destruct (nth_error (y :: ys) (draw k mod List.length (y :: ys)))
            eqn:N; [| discriminate].
          inversion Ha; subst. eapply nth_error_In; eassumption.
        + intros s Hs. apply dict_find_set_other; congruence. }
    destruct Hx as (Hxa & Hxb & Hxc).
    repeat split.
    + intros s [-> | Hs] Ht; [| auto].
      destruct (mem_state s l) eqn:E.
      * apply mem_state_In in E. auto.
      * assert (~ In s l) by (rewrite <- mem_state_In; congruence).
        rewrite IHc by assumption. auto.
    + intros s [-> | Hs] Ht; [| auto].
      destruct (mem_state s l) eqn:E.
      * apply mem_state_In in E. auto.
      * assert (~ In s l) by (rewrite <- mem_state_In; congruence).
        rewrite IHc by assumption. auto.
    + intros s Hs. simpl in Hs.
      rewrite IHc by tauto. apply Hxc. intros ->. tauto.
Qed.

(** The loop cannot fail when every non-terminal state has an action. *)
Lemma init_loop_total :
  forall (l : list State) (acc : Solver.Policy * nat),
    (forall s, In s l -> m_isTerminal M s = false -> m_getActions M s <> []) ->
    exists acc', Solver.for_states (Solver.init_state M draw) l acc = Ok acc'.
Proof.
  induction l as [| x l IH]; intros acc Hact.
  - eexists; reflexivity.
  - rewrite for_states_cons. destruct acc as [policy k].
    unfold Solver.init_state at 1.
    destruct (m_isTerminal M x) eqn:Ht; cbn [bind].
    + apply IH. intros s Hs. apply Hact. right; assumption.
    + destruct (random_choice_in draw k (m_getActions M x)) as (a & -> & _).
      { apply Hact; [left; reflexivity | assumption]. }
      cbn [bind]. apply IH. intros s Hs. apply Hact. right; assumption.
Qed.
End InitialPolicy.

Lemma ordered_init_policy (l : list State) (draw : nat -> nat) :
  exists policy,
    Solver.init_policy (ordered l) draw = Ok policy
    /\ forall s, In s l ->
                 Gridworld.isTerminal Gridworld.init s = false ->
                 exists a, In a (Gridworld.actions Gridworld.init)
                           /\ dict_get state_eqb policy s = Ok (Some a).
Proof.
  unfold Solver.init_policy.
  destruct (init_loop_total (ordered l) draw (m_getStates (ordered l)) ([], O))
    as ([policy k] & E).
  { intros s _ Ht. rewrite (ordered_actions l s Ht). discriminate. }
  rewrite E. exists policy. split; [reflexivity |].
  intros s Hs Ht.
  destruct (init_loop_spec (ordered l) draw _ _ _ E) as (Ha & _ & _).
  destruct (Ha s Hs Ht) as (a & Hin & Hf).
  rewrite (ordered_actions l s Ht) in Hin.
  exists a. split; [exact Hin |].
  unfold dict_get. simpl in Hf. rewrite Hf. reflexivity.
Qed.

Lemma ordered_eval_sweep_fails (l : list State) (discount : float)
      (policy : Solver.Policy) (U : Solver.Table) :
  (forall s, In s l -> Gridworld.isTerminal Gridworld.init s = false ->
             exists a, In a (Gridworld.actions Gridworld.init)
                       /\ dict_get state_eqb policy s = Ok (Some a)) ->
  (exists s, In s l /\ Gridworld.isTerminal Gridworld.init s = false) ->
  Solver.eval_sweep (ordered l) discount policy U = Raise KeyError.
Proof.
  intros Hp H. unfold Solver.eval_sweep. rewrite ordered_states.
  apply (for_states_raise _ (Gridworld.isTerminal Gridworld.init)); [| exact H].
  intros [U_new delta] s Hs. unfold Solver.eval_state.
  rewrite ordered_terminal.
  destruct (Gridworld.isTerminal Gridworld.init s) eqn:Ht; [eauto |].
  destruct (Hp s Hs Ht) as (a & Ha & ->). cbn [bind].
  rewrite ordered_q_value_fails; [reflexivity | assumption | assumption].
Qed.

Lemma ordered_policy_iteration_fails (l : list State)
      (discount : float) (n : Z) (epsilon : float) (draw : nat -> nat) :
  enumerates l -> 1 <= n ->
  Solver.policy_iteration (ordered l) discount n epsilon draw = Raise KeyError.
Proof.
  intros Hl Hn. apply enumerates_has_non_terminal in Hl.
  unfold Solver.policy_iteration.
  destruct (ordered_init_policy l draw) as (policy & -> & Hp). cbn [bind].
  destruct (Z.to_nat n) as [| k] eqn:E; [lia |].
  cbn [Solver.pi_loop]. rewrite E. cbn [Solver.eval_loop].
  rewrite ordered_eval_sweep_fails; [reflexivity | exact Hp | exact Hl].
Qed.

(** ** One sweep of value iteration *)

Section Sweep.
Variable M : Model.
Variable discount : float.
Variable U : Solver.Table.

Lemma vi_state_backup (U_new : Solver.Table) (delta : float) (s : State) :
  Solver.vi_state M discount U (U_new, delta) s
  = (v <- backup M discount U s ;;
     if m_isTerminal M s then Ok (dict_set state_eqb U_new s v, delta)
     else old <- dict_get state_eqb U s ;;
          Ok (dict_set state_eqb U_new s v, py_max2 delta (abs (v - old)))).
Proof.
  unfold Solver.vi_state, backup.
  destruct (m_isTerminal M s); [reflexivity |].
  destruct (Solver.action_values M U s (m_getActions M s)) as [qs | e];
    [| reflexivity].
  cbn [bind]. rewrite dict_get_set_same. reflexivity.
Qed.

Lemma value_at_find (T : Solver.Table) (s : State) (v : float) :
  dict_find state_eqb T s = Some v -> value_at T s = v.
Proof. intros H. unfold value_at, dict_get_default. rewrite H. reflexivity. Qed.

(** What a completed run of the loop body over [l] leaves behind. *)
Lemma sweep_invariant :
  forall (l : list State) (U_new U' : Solver.Table) (d delta : float),
    Solver.for_states (Solver.vi_state M discount U) l (U_new, d) = Ok (U', delta) ->
    (forall s, In s l ->
       exists v, backup M discount U s = Ok v /\ dict_find state_eqb U' s = Some v)
    /\ (forall s, ~ In s l ->
          dict_find state_eqb U' s = dict_find state_eqb U_new s)
    /\ delta = fold_left py_max2 (map (change U U') (non_terminal M l)) d.
Proof.
  induction l as [| x l IH]; intros U_new U' d delta H.
  - inversion H; subst. repeat split; intros; try contradiction; reflexivity.
  - rewrite for_states_cons, vi_state_backup in H.
    destruct (backup M discount U x) as [v | e] eqn:Hv; [| discriminate].
    cbn [bind] in H.
    assert (Hx : forall U1 d1,
               Solver.for_states (Solver.vi_state M discount U) l (U1, d1)
               = Ok (U', delta) ->
               U1 = dict_set state_eqb U_new x v ->
               dict_find state_eqb U' x = Some v
               /\ (forall s, In s (x :: l) ->
                     exists v, backup M discount U s = Ok v
                               /\ dict_find state_eqb U' s = Some v)
               /\ (forall s, ~ In s (x :: l) ->
                     dict_find state_eqb U' s = dict_find state_eqb U_new s)
               /\ delta = fold_left py_max2 (map (change U U') (non_terminal M l)) d1).
    { intros U1 d1 H1 ->. destruct (IH _ _ _ _ H1) as (Ia & Ib & Ic).
      assert (Fx : dict_find state_eqb U' x = Some v).
      { destruct (mem_state x l) eqn:E.
        - apply mem_state_In in E. destruct (Ia x E) as (v' & Hv' & Hf).
          congruence.
        - assert (~ In x l) by (rewrite <- mem_state_In; congruence).
          rewrite Ib by assumption. apply dict_find_set_same. }
      repeat split; auto.
      - intros s [<- | Hs]; [eauto | auto].
      - intros s Hs. simpl in Hs. rewrite Ib by tauto.
        apply dict_find_set_other. intros ->. tauto. }
    unfold non_terminal. cbn [filter].
    destruct (m_isTerminal M x) eqn:Ht; cbn [negb].
    + destruct (Hx _ _ H eq_refl) as (_ & Ha & Hb & Hc). auto.
    + unfold dict_get in H.
      destruct (dict_find state_eqb U x) as [old |] eqn:Ho; [| discriminate].
      cbn [bind] in H.
      destruct (Hx _ _ H eq_refl) as (Fx & Ha & Hb & Hc).
      repeat split; auto.
      cbn [map fold_left]. unfold change at 2.
      rewrite (value_at_find U' x v Fx), (value_at_find U x old Ho).
      exact Hc.
Qed.
End Sweep.

(** C9, counterexample.  On the grid with documented transition pairs the
    first sweep changes the utility of the goal state (0,3) from 0 to 1, yet
    the [delta] of that sweep is 0.04: the change of a terminal state is not
    part of it. *)
Lemma terminal_change_is_not_in_delta :
  exists U' delta,
    Solver.vi_sweep (documented Gridworld.init) 0.9%float
      (Solver.zero_table (Gridworld.getStates Gridworld.init)) = Ok (U', delta)
    /\ m_isTerminal (documented Gridworld.init) (0, 3) = true
    /\ change (Solver.zero_table (Gridworld.getStates Gridworld.init)) U' (0, 3)
       = 1%float
    /\ delta = 0.04%float
    /\ py_lt delta 1%float = true.
Proof. do 2 eexists. repeat split; vm_compute; reflexivity. Qed.

(** C9, amended.  In every sweep of [value_iteration] that runs to its end,
    [delta] is the running [max], started at 0, of the absolute utility
    changes of the non-terminal states only, taken between the previous and
    the new table; a terminal state is set to its reward and skipped by the
    [delta] update, and every state of the model holds its newly computed
    value in the new table. *)
Theorem delta_ranges_over_non_terminal_states :
  forall (M : Model) (discount : float) (U U' : Solver.Table) (delta : float),
    Solver.vi_sweep M discount U = Ok (U', delta) ->
    delta = py_max 0%float (map (change U U') (non_terminal M (m_getStates M)))
    /\ (forall s, In s (m_getStates M) -> m_isTerminal M s = true ->
          dict_get state_eqb U' s = Ok (m_getRewards M s))
    /\ (forall s, In s (m_getStates M) ->
          backup M discount U s = Ok (value_at U' s)).
Proof.
  intros M discount U U' delta H. unfold Solver.vi_sweep in H.
  destruct (sweep_invariant M discount U _ _ _ _ _ H) as (Ha & _ & Hc).
  repeat split.
  - exact Hc.
  - intros s Hs Ht. destruct (Ha s Hs) as (v & Hv & Hf).
    unfold backup in Hv. rewrite Ht in Hv. inversion Hv; subst.
    unfold dict_get. rewrite Hf. reflexivity.
  - intros s Hs. destruct (Ha s Hs) as (v & Hv & Hf).
    rewrite (value_at_find U' s v Hf). exact Hv.
Qed.

Lemma delta_ranges_over_non_terminal_states_witness :
  exists U' delta,
    Solver.vi_sweep (documented Gridworld.init) 0.9%float
      (Solver.zero_table (Gridworld.getStates Gridworld.init)) = Ok (U', delta)
    /\ delta = py_max 0%float
                 (map (change (Solver.zero_table (Gridworld.getStates Gridworld.init)) U')
                      (non_terminal (documented Gridworld.init)
                         (m_getStates (documented Gridworld.init)))).
Proof.
  eexists. eexists.
  assert (E : Solver.vi_sweep (documented Gridworld.init) 0.9%float
                (Solver.zero_table (Gridworld.getStates Gridworld.init))
              = Ok ([((0,0), (-0.04)%float); ((0,1), (-0.04)%float);
                     ((0,2), (-0.04)%float); ((0,3), 1%float);
                     ((1,0), (-0.04)%float); ((1,2), (-0.04)%float);
                     ((1,3), (-1)%float); ((2,0), (-0.04)%float);
                     ((2,1), (-0.04)%float); ((2,2), (-0.04)%float);
                     ((2,3), (-0.04)%float)], 0.04%float))
    by (vm_compute; reflexivity).
  split; [exact E |].
  exact (proj1 (delta_ranges_over_non_terminal_states _ _ _ _ _ E)).
Defined.

(** ** The solvers on the reference grid

    [getTransitions] returns [list(transitions.items())], pairs of the form
    (next_state, probability), while its docstring promises (probability,
    next_state) and both solvers unpack the pairs as [prob, next_state].  On
    the reference grid the first table lookup [U[next_state]] is therefore
    made with a float key and raises [KeyError]. *)

Lemma reference_states :
  m_getStates reference
  = [(0,0); (0,1); (0,2); (0,3); (1,0); (1,2); (1,3); (2,0); (2,1); (2,2); (2,3)].
Proof. reflexivity. Qed.

Lemma reference_has_non_terminal :
  exists s, In s (m_getStates reference)
            /\ Gridworld.isTerminal Gridworld.init s = false.
Proof. apply enumerates_has_non_terminal, enumerates_reference. Qed.

Lemma reference_vi_sweep_fails (discount : float) (U : Solver.Table) :
  Solver.vi_sweep reference discount U = Raise KeyError.
Proof.
  apply (ordered_vi_sweep_fails (m_getStates reference)).
  exact reference_has_non_terminal.
Qed.

Lemma reference_greedy_fails (U : Solver.Table) (s : State) :
  Gridworld.isTerminal Gridworld.init s = false ->
  Solver.greedy reference U s = Raise KeyError.
Proof. apply (ordered_greedy_fails (m_getStates reference)). Qed.

Lemma reference_extraction_fails (U : Solver.Table) :
  Solver.for_states (Solver.extract_state reference U) (m_getStates reference) []
  = Raise KeyError.
Proof.
  apply (ordered_extraction_fails (m_getStates reference)).
  exact reference_has_non_terminal.
Qed.

Lemma reference_value_iteration_fails (discount : float) (n : Z) (epsilon : float) :
  Solver.value_iteration reference discount n epsilon = Raise KeyError.
Proof.
  apply (ordered_value_iteration_fails (m_getStates reference)).
  exact enumerates_reference.
Qed.

Lemma reference_init_policy (draw : nat -> nat) :
  exists policy,
    Solver.init_policy reference draw = Ok policy
    /\ forall s, In s (m_getStates reference) ->
                 Gridworld.isTerminal Gridworld.init s = false ->
                 exists a, In a (Gridworld.actions Gridworld.init)
                           /\ dict_get state_eqb policy s = Ok (Some a).
Proof. apply (ordered_init_policy (m_getStates reference)). Qed.

Lemma reference_eval_sweep_fails (discount : float) (policy : Solver.Policy)
      (U : Solver.Table) :
  (forall s, In s (m_getStates reference) ->
             Gridworld.isTerminal Gridworld.init s = false ->
             exists a, In a (Gridworld.actions Gridworld.init)
                       /\ dict_get state_eqb policy s = Ok (Some a)) ->
  Solver.eval_sweep reference discount policy U = Raise KeyError.
Proof.
  intros Hp. apply (ordered_eval_sweep_fails (m_getStates reference)).
  - exact Hp.
  - exact reference_has_non_terminal.
Qed.

Lemma reference_policy_iteration_fails
      (discount : float) (n : Z) (epsilon : float) (draw : nat -> nat) :
  1 <= n ->
  Solver.policy_iteration reference discount n epsilon draw = Raise KeyError.
Proof.
  apply (ordered_policy_iteration_fails (m_getStates reference)).
  exact enumerates_reference.
Qed.

(** C2.  On the reference grid every utility starts at 0, but no sweep of
    [value_iteration] runs to its end: whatever the discount and the table,
    the sweep raises [KeyError] at the first non-terminal state, so no
    utility is updated and the stopping test is never reached. *)
Theorem reference_sweep_never_completes :
  (forall s, In s (m_getStates reference) ->
             dict_get state_eqb (Solver.zero_table (m_getStates reference)) s
             = Ok 0%float)
  /\ (forall (discount : float) (U : Solver.Table),
         Solver.vi_sweep reference discount U = Raise KeyError)
  /\ (forall (discount epsilon : float) (n : Z),
         1 <= n ->
         Solver.value_iteration reference discount n epsilon = Raise KeyError).
Proof.
  split; [| split].
  - intros s Hs. each_state Hs; reflexivity.
  - apply reference_vi_sweep_fails.
  - intros. apply reference_value_iteration_fails.
Qed.

Lemma reference_sweep_never_completes_witness :
  Solver.value_iteration reference 0.9%float 100 1e-4%float = Raise KeyError.
Proof.
  apply (proj2 (proj2 reference_sweep_never_completes)). lia.
Defined.

(** C3.  With the default parameters neither solver returns a policy or a
    utility table for the reference grid: [value_iteration] raises
    [KeyError], and so does [policy_iteration] for every initial policy the
    random draws can produce. *)
Theorem reference_solvers_return_nothing :
  Solver.value_iteration reference 0.9%float 100 1e-4%float = Raise KeyError
  /\ forall draw : nat -> nat,
       Solver.policy_iteration reference 0.9%float 100 1e-4%float draw
       = Raise KeyError.
Proof.
  split.
  - apply reference_value_iteration_fails.
  - intros draw. apply reference_policy_iteration_fails. lia.
Qed.

(** C4.  On the reference grid the policy extraction pass of
    [value_iteration] fails on any table, and [value_iteration] returns no
    policy for any choice of its parameters. *)
Theorem reference_value_iteration_returns_no_policy :
  (forall U : Solver.Table,
      Solver.for_states (Solver.extract_state reference U)
        (m_getStates reference) [] = Raise KeyError)
  /\ (forall (U : Solver.Table) (s : State),
         m_isTerminal reference s = false ->
         Solver.greedy reference U s = Raise KeyError)
  /\ (forall (discount epsilon : float) (n : Z),
         is_ok (Solver.value_iteration reference discount n epsilon) = false).
Proof.
  split; [| split].
  - apply reference_extraction_fails.
  - intros U s Ht. apply reference_greedy_fails. exact Ht.
  - intros. rewrite reference_value_iteration_fails. reflexivity.
Qed.

(** C5.  On the reference grid [policy_iteration] never reaches its
    improvement pass: for every initial policy the first evaluation sweep
    raises [KeyError], and with at least one iteration the call raises it
    too. *)
Theorem reference_policy_iteration_never_improves :
  forall (discount epsilon : float) (n : Z) (draw : nat -> nat),
    1 <= n ->
    (exists policy,
        Solver.init_policy reference draw = Ok policy
        /\ forall U, Solver.eval_sweep reference discount policy U = Raise KeyError)
    /\ Solver.policy_iteration reference discount n epsilon draw = Raise KeyError.
Proof.
  intros discount epsilon n draw Hn. split.
  - destruct (reference_init_policy draw) as (policy & Hi & Hp).
    exists policy. split; [exact Hi |].
    intros U. apply reference_eval_sweep_fails. exact Hp.
  - apply reference_policy_iteration_fails. exact Hn.
Qed.

Lemma reference_policy_iteration_never_improves_witness :
  Solver.policy_iteration reference 0.9%float 100 1e-4%float (fun _ => O)
  = Raise KeyError.
Proof.
  apply (proj2 (reference_policy_iteration_never_improves
                  0.9%float 1e-4%float 100 (fun _ => O) ltac:(lia))).
Defined.

(** C6.  On the reference grid, with at least one iteration, neither solver
    returns a utility table at all, for any discount: both calls end in
    [KeyError], so no terminal utility is ever reported. *)
Theorem reference_terminal_utilities_never_returned :
  forall (discount epsilon : float) (n : Z) (draw : nat -> nat),
    1 <= n ->
    (forall r, Solver.value_iteration reference discount n epsilon <> Ok r)
    /\ (forall r, Solver.policy_iteration reference discount n epsilon draw <> Ok r).
Proof.
  intros discount epsilon n draw Hn. split; intros r.
  - rewrite reference_value_iteration_fails. discriminate.
  - rewrite reference_policy_iteration_fails by exact Hn. discriminate.
Qed.

Lemma reference_terminal_utilities_never_returned_witness :
  (forall r, Solver.value_iteration reference 0.5%float 1 1e-4%float <> Ok r)
  /\ (forall r, Solver.policy_iteration reference 0.5%float 1 1e-4%float
                  (fun _ => O) <> Ok r).
Proof.
  apply (reference_terminal_utilities_never_returned
           0.5%float 1e-4%float 1 (fun _ => O)). lia.
Defined.

(** C10.  [value_iteration] called on the reference grid with
    [max_iterations = 0] skips the sweeps and fails in the policy extraction
    pass with [KeyError], whatever the discount and epsilon. *)
Theorem reference_value_iteration_zero_iterations :
  forall discount epsilon : float,
    Solver.value_iteration reference discount 0 epsilon = Raise KeyError.
Proof.
  intros discount epsilon. unfold Solver.value_iteration.
  cbn [Z.to_nat Solver.vi_loop bind].
  rewrite reference_extraction_fails. reflexivity.
Qed.

(** * Further properties of the code *)

(** ** The constructor of Gridworld *)

Lemma range_In (n z : Z) : In z (range n) <-> 0 <= z < n.
Proof.
  unfold range. rewrite in_map_iff. split.
  - intros (k & <- & Hk). apply in_seq in Hk. lia.
  - intros Hz. exists (Z.to_nat z). split; [lia |]. apply in_seq. lia.
Qed.

Lemma set_add_In (x s : State) (l : list State) :
  In s (Gridworld.set_add x l) <-> s = x \/ In s l.
Proof.
  unfold Gridworld.set_add. destruct (mem_state x l) eqn:E.
  - apply mem_state_In in E. split; [tauto |]. intros [-> | H]; assumption.
  - rewrite in_app_iff. simpl. split; [intros [H | [H | []]]; auto | ].
    intros [-> | H]; auto.
Qed.

Lemma set_add_NoDup (x : State) (l : list State) :
  NoDup l -> NoDup (Gridworld.set_add x l).
Proof.
  intros Hl. unfold Gridworld.set_add. destruct (mem_state x l) eqn:E; [assumption |].
  assert (Hx : ~ In x l) by (rewrite <- mem_state_In; congruence).
  clear E. induction Hl as [| y l Hy Hl IH]; simpl.
  - constructor; [tauto | constructor].
  - constructor.
    + rewrite in_app_iff. simpl. intros [H | [H | []]]; [tauto |].
      subst. apply Hx. left; reflexivity.
    + apply IH. intros H. apply Hx. right; assumption.
Qed.

Section BuildStates.
Variable walls : list State.

Lemma row_loop_In (r : Z) (cs : list Z) :
  forall (acc : list State) (s : State),
    In s (fold_left
            (fun acc c =>
               if mem_state (r, c) walls then acc else Gridworld.set_add (r, c) acc)
            cs acc)
    <-> In s acc
        \/ (exists c, In c cs /\ s = (r, c) /\ mem_state (r, c) walls = false).
Proof.
  induction cs as [| c cs IH]; intros acc s; cbn [fold_left].
  - split; [tauto | intros [H | (c & [] & _)]; assumption].
  - rewrite IH.
    destruct (mem_state (r, c) walls) eqn:E.
    + split.
      * intros [H | (c' & Hc' & Hs)]; [tauto | right; exists c'; simpl; tauto].
      * intros [H | (c' & [<- | Hc'] & -> & Hw)];
          [tauto | congruence | right; exists c'; tauto].
    + rewrite set_add_In. split.
      * intros [[-> | H] | (c' & Hc' & Hs)];
          [right; exists c; simpl; tauto | tauto | right; exists c'; simpl; tauto].
      * intros [H | (c' & [<- | Hc'] & -> & Hw)];
          [tauto | tauto | right; exists c'; tauto].
Qed.

Lemma row_loop_NoDup (r : Z) (cs : list Z) :
  forall acc,
    NoDup acc ->
    NoDup (fold_left
             (fun acc c =>
                if mem_state (r, c) walls then acc else Gridworld.set_add (r, c) acc)
             cs acc).
Proof.
  induction cs as [| c cs IH]; intros acc Hacc; cbn [fold_left]; [assumption |].
  apply IH. destruct (mem_state (r, c) walls);
    [assumption | apply set_add_NoDup; assumption].
Qed.

Lemma build_states_characterised (h w : Z) :
  (forall s : State,
      In s (Gridworld.build_states h w walls)
      <-> 0 <= fst s < h /\ 0 <= snd s < w /\ mem_state s walls = false)
  /\ NoDup (Gridworld.build_states h w walls).
Proof.
  unfold Gridworld.build_states.
  assert (G : forall rs acc,
             (forall s,
                 In s (fold_left
                         (fun acc r =>
                            fold_left
                              (fun acc c =>
                                 if mem_state (r, c) walls then acc
                                 else Gridworld.set_add (r, c) acc)
                              (range w) acc) rs acc)
                 <-> In s acc
                     \/ (In (fst s) rs /\ 0 <= snd s < w
                         /\ mem_state s walls = false))
             /\ (NoDup acc ->
                 NoDup (fold_left
                          (fun acc r =>
                             fold_left
                               (fun acc c =>
                                  if mem_state (r, c) walls then acc
                                  else Gridworld.set_add (r, c) acc)
                               (range w) acc) rs acc))).
  { induction rs as [| r rs IH]; intros acc; cbn [fold_left].
    - split; [intros s; simpl; tauto | auto].
    - destruct (IH (fold_left
                      (fun acc c =>
                         if mem_state (r, c) walls then acc
                         else Gridworld.set_add (r, c) acc) (range w) acc))
        as (IHa & IHb).
      split.
      + intros s. rewrite IHa, row_loop_In. split.
        * intros [[H | (c & Hc & -> & Hw)] | H]; [tauto | | simpl; tauto].
          right. simpl. apply range_In in Hc. tauto.
        * destruct s as [r' c']; simpl.
          intros [H | ([-> | Hr] & Hc & Hw)]; [tauto | | tauto].
          left; right. exists c'. rewrite range_In. intuition auto.
      + intros Hacc. apply IHb, row_loop_NoDup, Hacc. }
  destruct (G (range h) []) as (Ga & Gb). split.
  - intros s. rewrite Ga, range_In. simpl. tauto.
  - apply Gb. constructor.
Qed.
End BuildStates.

(** X1.  The state set built by the constructor holds exactly the cells
    inside the [h] x [w] rectangle that are not walls, each of them once. *)
Theorem build_states_spec (h w : Z) (walls : list State) :
  (forall s : State,
      In s (Gridworld.build_states h w walls)
      <-> 0 <= fst s < h /\ 0 <= snd s < w /\ mem_state s walls = false)
  /\ NoDup (Gridworld.build_states h w walls).
Proof. apply build_states_characterised. Qed.


(** ** Moves and transitions on any grid *)

Lemma open_cell_spec (g : Gridworld.t) (t : State) :
  open_cell g t = true
  <-> 0 <= fst t < Gridworld.height g /\ 0 <= snd t < Gridworld.width g
      /\ mem_state t (Gridworld.wall_states g) = false.
Proof.
  unfold open_cell. rewrite !andb_true_iff, negb_true_iff.
  rewrite !Z.leb_le, !Z.ltb_lt. tauto.
Qed.

Lemma check_move_cases (g : Gridworld.t) (s : State) (m : Z * Z) :
  Gridworld._check_move g s m
  = if open_cell g (fst s + fst m, snd s + snd m)
    then (fst s + fst m, snd s + snd m) else s.
Proof.
  unfold Gridworld._check_move, open_cell. cbn [fst snd].
  destruct (0 <=? fst s + fst m), (fst s + fst m <? Gridworld.height g),
    (0 <=? snd s + snd m), (snd s + snd m <? Gridworld.width g),
    (mem_state (fst s + fst m, snd s + snd m) (Gridworld.wall_states g));
    reflexivity.
Qed.

Lemma check_move_in_states (g : Gridworld.t) (s : State) (m : Z * Z) :
  constructed g ->
  In s (Gridworld.getStates g) ->
  In (Gridworld._check_move g s m) (Gridworld.getStates g).
Proof.
  intros Hc Hs. rewrite check_move_cases.
  destruct (open_cell g (fst s + fst m, snd s + snd m)) eqn:E; [| exact Hs].
  unfold Gridworld.getStates. rewrite Hc.
  apply (proj1 (build_states_characterised _ _ _)).
  apply open_cell_spec in E. exact E.
Qed.

(** X2.  [_check_move] moves to the target cell exactly when that cell lies
    inside the grid and is not a wall, and otherwise stays put; on a grid
    whose state set was built by the constructor it therefore never leaves
    the state set. *)
Theorem check_move_stays_in_states :
  forall (g : Gridworld.t) (s : State) (m : Z * Z),
    constructed g ->
    In s (Gridworld.getStates g) ->
    In (Gridworld._check_move g s m) (Gridworld.getStates g)
    /\ (open_cell g (fst s + fst m, snd s + snd m) = true ->
        Gridworld._check_move g s m = (fst s + fst m, snd s + snd m))
    /\ (open_cell g (fst s + fst m, snd s + snd m) = false ->
        Gridworld._check_move g s m = s).
Proof.
  intros g s m Hc Hs. split; [apply check_move_in_states; assumption |].
  rewrite check_move_cases.
  destruct (open_cell g (fst s + fst m, snd s + snd m));
    split; intros; try discriminate; reflexivity.
Qed.

Lemma check_move_stays_in_states_witness :
  In (Gridworld._check_move Gridworld.init (1, 0) (0, 1))
     (Gridworld.getStates Gridworld.init)
  /\ Gridworld._check_move Gridworld.init (1, 0) (0, 1) = (1, 0)
  /\ Gridworld._check_move Gridworld.init (1, 0) (1, 0) = (2, 0).
Proof.
  destruct (check_move_stays_in_states Gridworld.init (1, 0) (0, 1))
    as (H1 & _ & H3); [reflexivity | vm_compute; auto 10 |].
  destruct (check_move_stays_in_states Gridworld.init (1, 0) (1, 0))
    as (_ & H2 & _); [reflexivity | vm_compute; auto 10 |].
  split; [exact H1 | split; [apply H3; reflexivity | apply H2; reflexivity]].
Defined.

(** Keys of a dictionary after an assignment. *)
Lemma dict_set_keys {V : Type} (d : dict State V) (k : State) (v : V) :
  dict_keys (dict_set state_eqb d k v)
  = if mem_state k (dict_keys d) then dict_keys d
    else (dict_keys d ++ [k])%list.
Proof.
  unfold dict_keys. induction d as [| [k' w] d IH]; simpl; [reflexivity |].
  destruct (state_eqb k k') eqn:E; simpl; [reflexivity |].
  rewrite IH. unfold mem_state. destruct (existsb (state_eqb k) (map fst d));
    reflexivity.
Qed.

Lemma dict_set_keys_In {V : Type} (d : dict State V) (k t : State) (v : V) :
  In t (dict_keys (dict_set state_eqb d k v)) <-> t = k \/ In t (dict_keys d).
Proof.
  rewrite dict_set_keys. destruct (mem_state k (dict_keys d)) eqn:E.
  - apply mem_state_In in E. split; [tauto | intros [-> | H]; assumption].
  - rewrite in_app_iff. simpl.
    split; [intros [H | [<- | []]]; auto | intros [-> | H]; auto].
Qed.

Lemma dict_set_keys_NoDup {V : Type} (d : dict State V) (k : State) (v : V) :
  NoDup (dict_keys d) -> NoDup (dict_keys (dict_set state_eqb d k v)).
Proof.
  intros Hd. rewrite dict_set_keys. destruct (mem_state k (dict_keys d)) eqn:E;
    [assumption |].
  assert (Hk : ~ In k (dict_keys d)) by (rewrite <- mem_state_In; congruence).
  apply NoDup_app; [assumption | constructor; [tauto | constructor] |].
  intros x Hx [<- | []]. tauto.
Qed.

Lemma dict_set_length {V : Type} (d : dict State V) (k : State) (v : V) :
  (List.length (dict_set state_eqb d k v) <= S (List.length d))%nat.
Proof.
  induction d as [| [k' w] d IH]; simpl; [lia |].
  destruct (state_eqb k k'); simpl; lia.
Qed.

(** The list [getTransitions] returns for a non-terminal state, spelled out. *)
Lemma getTransitions_ok_inv (g : Gridworld.t) (s : State)
      (a : option Action) (ts : list (State * float)) :
  Gridworld.isTerminal g s = false ->
  Gridworld.getTransitions g s a = Ok ts ->
  exists m1 m2 m3,
    ts = Gridworld.add_prob
           (Gridworld.add_prob
              (Gridworld.add_prob [] (Gridworld._check_move g s m1)
                 (Gridworld.move_prob g))
              (Gridworld._check_move g s m2) (Gridworld.slip_prob g))
           (Gridworld._check_move g s m3) (Gridworld.slip_prob g).
Proof.
  intros Ht H. unfold Gridworld.getTransitions in H. rewrite Ht in H.
  apply bind_ok_inv in H. destruct H as (m1 & _ & H).
  apply bind_ok_inv in H. destruct H as (l2 & _ & H).
  apply bind_ok_inv in H. destruct H as (m2 & _ & H).
  apply bind_ok_inv in H. destruct H as (l3 & _ & H).
  apply bind_ok_inv in H. destruct H as (m3 & _ & H).
  inversion H. eauto.
Qed.

Lemma getTransitions_shape (g : Gridworld.t) (s : State)
      (a : option Action) (ts : list (State * float)) :
  constructed g ->
  In s (Gridworld.getStates g) ->
  Gridworld.getTransitions g s a = Ok ts ->
  (forall t, In t (dict_keys ts) -> In t (Gridworld.getStates g))
  /\ NoDup (dict_keys ts)
  /\ (List.length ts <= 3)%nat
  /\ (Gridworld.isTerminal g s = true -> ts = [])
  /\ (Gridworld.isTerminal g s = false -> ts <> []).
Proof.
  intros Hc Hs H. destruct (Gridworld.isTerminal g s) eqn:Ht.
  - unfold Gridworld.getTransitions in H. rewrite Ht in H. inversion H; subst.
    repeat split; simpl; try tauto; try lia; try constructor; discriminate.
  - destruct (getTransitions_ok_inv g s a ts Ht H) as (m1 & m2 & m3 & ->).
    split; [| split; [| split; [| split]]].
    + unfold Gridworld.add_prob.
      intros t Ht'. rewrite !dict_set_keys_In in Ht'. simpl in Ht'.
      destruct Ht' as [-> | [-> | [-> | []]]];
        apply check_move_in_states; assumption.
    + unfold Gridworld.add_prob.
      repeat apply dict_set_keys_NoDup. constructor.
    + match goal with
      | |- (List.length (Gridworld.add_prob
                           (Gridworld.add_prob
                              (Gridworld.add_prob [] ?k1 ?p1) ?k2 ?p2) ?k3 ?p3)
            <= 3)%nat =>
          pose proof (dict_set_length (Gridworld.add_prob
                                         (Gridworld.add_prob [] k1 p1) k2 p2) k3
                        (dict_get_default state_eqb
                           (Gridworld.add_prob (Gridworld.add_prob [] k1 p1) k2 p2)
                           k3 0 + p3)%float) as L3;
          pose proof (dict_set_length (Gridworld.add_prob [] k1 p1) k2
                        (dict_get_default state_eqb
                           (Gridworld.add_prob [] k1 p1) k2 0 + p2)%float) as L2;
          pose proof (dict_set_length (@nil (State * float)) k1
                        (dict_get_default state_eqb [] k1 0 + p1)%float) as L1
      end.
      unfold Gridworld.add_prob in *. simpl List.length in L1 at 2. lia.
    + discriminate.
    + intros _. apply add_prob_nonempty.
Qed.

(** X3.  On any grid built by the constructor, the transitions of a state of
    the model never leave the state set: every listed next state is a state,
    no next state is listed twice, and there are at most three entries; the
    list is empty for a terminal state and non-empty otherwise. *)
Theorem getTransitions_closed :
  forall (g : Gridworld.t) (s : State) (a : option Action)
         (ts : list (State * float)),
    constructed g ->
    In s (Gridworld.getStates g) ->
    Gridworld.getTransitions g s a = Ok ts ->
    (forall t, In t (dict_keys ts) -> In t (Gridworld.getStates g))
    /\ NoDup (dict_keys ts)
    /\ (List.length ts <= 3)%nat
    /\ (Gridworld.isTerminal g s = true -> ts = [])
    /\ (Gridworld.isTerminal g s = false -> ts <> []).
Proof. exact getTransitions_shape. Qed.

Lemma getTransitions_closed_witness :
  NoDup (dict_keys [((0, 0), 0.9%float); ((1, 0), 0.1%float)])
  /\ (List.length [((0, 0), 0.9%float); ((1, 0), 0.1%float)] <= 3)%nat.
Proof.
  destruct (getTransitions_closed Gridworld.init (0, 0) (Some "West")
              [((0, 0), 0.9%float); ((1, 0), 0.1%float)])
    as (_ & Hn & Hl & _).
  - reflexivity.
  - vm_compute; auto.
  - vm_compute; reflexivity.
  - split; [exact Hn | exact Hl].
Defined.

(** ** What value_iteration returns, on any model *)

Lemma for_states_ext {A : Type} (body body' : A -> State -> result A)
      (l : list State) :
  (forall acc s, In s l -> body acc s = body' acc s) ->
  forall acc, Solver.for_states body l acc = Solver.for_states body' l acc.
Proof.
  induction l as [| x l IH]; intros Hb acc; [reflexivity |].
  rewrite !for_states_cons, Hb by (left; reflexivity).
  destruct (body' acc x) as [acc' | e]; [| reflexivity].
  cbn [bind]. apply IH. intros acc0 s Hs. apply Hb. right; assumption.
Qed.

(** A loop that assigns [f s] to the key [s] for each state of [l]. *)
Lemma write_loop_spec {V : Type} (f : State -> result V) :
  forall (l : list State) (acc acc' : dict State V),
    Solver.for_states
      (fun acc s => v <- f s ;; Ok (dict_set state_eqb acc s v)) l acc = Ok acc' ->
    (forall s, In s l ->
       exists v, f s = Ok v /\ dict_find state_eqb acc' s = Some v)
    /\ (forall s, ~ In s l ->
          dict_find state_eqb acc' s = dict_find state_eqb acc s).
Proof.
  induction l as [| x l IH]; intros acc acc' H.
  - inversion H; subst. split; intros s Hs; [contradiction | reflexivity].
  - rewrite for_states_cons in H. apply bind_ok_inv in H.
    destruct H as (acc1 & H1 & H2).
    apply bind_ok_inv in H1. destruct H1 as (v & Hv & H1).
    inversion H1; subst acc1; clear H1.
    destruct (IH _ _ H2) as (Ia & Ib). split.
    + intros s [<- | Hs]; [| auto].
      destruct (mem_state x l) eqn:E.
      * apply mem_state_In in E. auto.
      * assert (~ In x l) by (rewrite <- mem_state_In; congruence).
        exists v. split; [assumption |].
        rewrite Ib by assumption. apply dict_find_set_same.
    + intros s Hs. simpl in Hs. rewrite Ib by tauto.
      apply dict_find_set_other. intros ->. tauto.
Qed.

Lemma zero_table_find (l : list State) (s : State) :
  dict_find state_eqb (Solver.zero_table l) s
  = if mem_state s l then Some 0%float else None.
Proof.
  unfold Solver.zero_table.
  assert (G : forall acc,
             dict_find state_eqb
               (fold_left (fun U s => dict_set state_eqb U s 0%float) l acc) s
             = if mem_state s l then Some 0%float else dict_find state_eqb acc s).
  { induction l as [| x l IH]; intros acc; [reflexivity |].
    cbn [fold_left]. rewrite IH. unfold mem_state. cbn [existsb].
    fold (mem_state s l).
    destruct (mem_state s l); [rewrite orb_true_r; reflexivity |].
    rewrite orb_false_r. destruct (state_eqb s x) eqn:E.
    - apply state_eqb_eq in E. subst. apply dict_find_set_same.
    - apply dict_find_set_other. apply state_eqb_neq in E. congruence. }
  apply G.
Qed.

Section ValueIterationResult.
Variable M : Model.
Variables (discount epsilon : float).


Lemma extract_state_writes (U : Solver.Table) (policy : Solver.Policy)
      (s : State) :
  Solver.extract_state M U policy s
  = (v <- (if m_isTerminal M s then Ok None else Solver.greedy M U s) ;;
     Ok (dict_set state_eqb policy s v)).
Proof.
  unfold Solver.extract_state. destruct (m_isTerminal M s); reflexivity.
Qed.

Lemma value_iteration_inv (n : Z) (policy : Solver.Policy) (U : Solver.Table) :
  Solver.value_iteration M discount n epsilon = Ok (policy, U) ->
  Solver.vi_loop M discount epsilon (Z.to_nat n)
    (Solver.zero_table (m_getStates M)) = Ok U
  /\ (forall s, In s (m_getStates M) ->
        exists v, (if m_isTerminal M s then Ok None else Solver.greedy M U s) = Ok v
                  /\ dict_find state_eqb policy s = Some v)
  /\ (forall s, ~ In s (m_getStates M) -> dict_find state_eqb policy s = None).
Proof.
  intros H. unfold Solver.value_iteration in H.
  apply bind_ok_inv in H. destruct H as (U0 & HU & H).
  apply bind_ok_inv in H. destruct H as (p & Hp & H).
  inversion H; subst p U0; clear H.
  split; [exact HU |].
  rewrite (for_states_ext _ _ _ (fun acc s _ => extract_state_writes U acc s)) in Hp.
  destruct (write_loop_spec _ _ _ _ Hp) as (Pa & Pb).
  split; [exact Pa | intros s Hs; rewrite Pb by exact Hs; reflexivity].
Qed.
End ValueIterationResult.

(** X4.  The policy [value_iteration] returns has an entry for exactly the
    states of the model: [None] for a terminal state and, for any other
    state, the action the greedy scan selects against the returned utility
    table. *)
Theorem value_iteration_policy_is_greedy :
  forall (M : Model) (discount epsilon : float) (n : Z)
         (policy : Solver.Policy) (U : Solver.Table),
    Solver.value_iteration M discount n epsilon = Ok (policy, U) ->
    (forall s, In s (m_getStates M) -> m_isTerminal M s = true ->
               dict_get state_eqb policy s = Ok None)
    /\ (forall s, In s (m_getStates M) -> m_isTerminal M s = false ->
                  Solver.greedy M U s = dict_get state_eqb policy s)
    /\ (forall s, ~ In s (m_getStates M) ->
                  dict_get state_eqb policy s = Raise KeyError).
Proof.
  intros M discount epsilon n policy U H.
  destruct (value_iteration_inv M discount epsilon n policy U H) as (_ & Pa & Pb).
  split; [| split].
  - intros s Hs Ht. destruct (Pa s Hs) as (v & Hv & Hf). rewrite Ht in Hv.
    inversion Hv; subst. unfold dict_get. rewrite Hf. reflexivity.
  - intros s Hs Ht. destruct (Pa s Hs) as (v & Hv & Hf). rewrite Ht in Hv.
    unfold dict_get. rewrite Hf. exact Hv.
  - intros s Hs. unfold dict_get. rewrite (Pb s Hs). reflexivity.
Qed.

Lemma value_iteration_policy_is_greedy_witness :
  exists policy U,
    Solver.value_iteration (documented Gridworld.init) 0.9%float 3 1e-4%float
    = Ok (policy, U)
    /\ Solver.greedy (documented Gridworld.init) U (2, 3)
       = dict_get state_eqb policy (2, 3).
Proof.
  destruct (Solver.value_iteration (documented Gridworld.init) 0.9%float 3
              1e-4%float) as [[policy U] | e] eqn:E; [| vm_compute in E; discriminate E].
  exists policy, U. split; [reflexivity |].
  apply (value_iteration_policy_is_greedy _ _ _ _ _ _ E);
    [vm_compute; auto 20 | reflexivity].
Defined.



(** ** The order in which a sweep visits the states *)

Section SweepOrder.
Variable M : Model.
Variable discount : float.
Variable U : Solver.Table.

Lemma sweep_needs :
  forall (l : list State) (acc r : Solver.Table * float),
    Solver.for_states (Solver.vi_state M discount U) l acc = Ok r ->
    forall s, In s l -> sweepable M discount U s.
Proof.
  induction l as [| x l IH]; intros acc r H s Hs; [contradiction |].
  rewrite for_states_cons in H. apply bind_ok_inv in H.
  destruct H as (acc1 & H1 & H2).
  destruct Hs as [<- | Hs]; [| eapply IH; eassumption].
  destruct acc as [U_new delta]. rewrite vi_state_backup in H1.
  apply bind_ok_inv in H1. destruct H1 as (v & Hv & H1).
  split; [eauto |]. intros Ht. rewrite Ht in H1.
  apply bind_ok_inv in H1. destruct H1 as (old & Ho & _).
  unfold dict_get in Ho.
  destruct (dict_find state_eqb U x) as [o |]; [eauto | discriminate].
Qed.

Lemma sweep_total :
  forall (l : list State),
    (forall s, In s l -> sweepable M discount U s) ->
    forall acc, exists r, Solver.for_states (Solver.vi_state M discount U) l acc = Ok r.
Proof.
  induction l as [| x l IH]; intros Hl acc; [eexists; reflexivity |].
  rewrite for_states_cons. destruct acc as [U_new delta].
  rewrite vi_state_backup.
  destruct (Hl x (or_introl eq_refl)) as ((v & ->) & Hold). cbn [bind].
  destruct (m_isTerminal M x).
  - cbn [bind]. apply IH. intros s Hs. apply Hl. right; assumption.
  - destruct (Hold eq_refl) as (old & Ho). unfold dict_get. rewrite Ho.
    cbn [bind]. apply IH. intros s Hs. apply Hl. right; assumption.
Qed.
End SweepOrder.

Lemma sweep_any_order (M : Model) (discount : float) (U : Solver.Table)
      (l l' : list State) (U1 : Solver.Table) (d1 : float) :
  Permutation l l' ->
  Solver.vi_sweep (with_states M l) discount U = Ok (U1, d1) ->
  exists U2 d2,
    Solver.vi_sweep (with_states M l') discount U = Ok (U2, d2)
    /\ forall s, dict_get state_eqb U2 s = dict_get state_eqb U1 s.
Proof.
  intros Hp H. unfold Solver.vi_sweep in *. cbn [m_getStates with_states] in *.
  change (Solver.vi_state (with_states M l) discount U)
    with (Solver.vi_state M discount U) in H.
  change (Solver.vi_state (with_states M l') discount U)
    with (Solver.vi_state M discount U).
  destruct (sweep_total M discount U l') with (acc := (U, 0%float))
    as ([U2 d2] & H2).
  { intros s Hs. eapply sweep_needs; [exact H |].
    eapply Permutation_in; [apply Permutation_sym; exact Hp | exact Hs]. }
  exists U2, d2. split; [exact H2 |].
  destruct (sweep_invariant M discount U _ _ _ _ _ H) as (A1 & B1 & _).
  destruct (sweep_invariant M discount U _ _ _ _ _ H2) as (A2 & B2 & _).
  intros s. unfold dict_get. destruct (mem_state s l) eqn:E.
  - apply mem_state_In in E.
    destruct (A1 s E) as (v1 & Hv1 & ->).
    destruct (A2 s (Permutation_in _ Hp E)) as (v2 & Hv2 & ->).
    congruence.
  - assert (N1 : ~ In s l) by (rewrite <- mem_state_In; congruence).
    assert (N2 : ~ In s l').
    { intros Hs. apply N1.
      eapply Permutation_in; [apply Permutation_sym; exact Hp | exact Hs]. }
    rewrite (B1 s N1), (B2 s N2). reflexivity.
Qed.

(** X6.  A sweep of [value_iteration] reads the previous table only, so the
    order in which the state set is enumerated does not matter: if the sweep
    completes for one enumeration it completes for every other one, and the
    two new tables hold the same value under every key. *)
Theorem sweep_order_is_irrelevant :
  forall (M : Model) (discount : float) (U : Solver.Table)
         (l l' : list State) (U1 : Solver.Table) (d1 : float),
    Permutation l l' ->
    Solver.vi_sweep (with_states M l) discount U = Ok (U1, d1) ->
    exists U2 d2,
      Solver.vi_sweep (with_states M l') discount U = Ok (U2, d2)
      /\ forall s, dict_get state_eqb U2 s = dict_get state_eqb U1 s.
Proof. exact sweep_any_order. Qed.

Lemma sweep_order_is_irrelevant_witness :
  exists U2 d2,
    Solver.vi_sweep
      (with_states (documented Gridworld.init) [(0, 3); (0, 2); (0, 1)])
      0.9%float (Solver.zero_table (Gridworld.getStates Gridworld.init))
    = Ok (U2, d2)
    /\ forall s,
         dict_get state_eqb U2 s
         = dict_get state_eqb
             [((0,0), 0%float); ((0,1), (-0.04)%float); ((0,2), (-0.04)%float);
              ((0,3), 1%float); ((1,0), 0%float); ((1,2), 0%float);
              ((1,3), 0%float); ((2,0), 0%float); ((2,1), 0%float);
              ((2,2), 0%float); ((2,3), 0%float)] s.
Proof.
  eapply (sweep_order_is_irrelevant (documented Gridworld.init) 0.9%float _
            [(0, 1); (0, 2); (0, 3)] [(0, 3); (0, 2); (0, 1)] _ 0.04%float).
  - apply Permutation_rev.
  - vm_compute. reflexivity.
Defined.


(** ** The order of binary64 numbers *)

Lemma SFltb_irrefl (x : spec_float) : SFltb x x = false.
Proof.
  unfold SFltb, SFcompare. destruct x as [s | s | | s m e]; try reflexivity.
  - destruct s; reflexivity.
  - destruct s; rewrite Z.compare_refl;
      change (Pos.compare_cont Eq m m) with (Pos.compare m m);
      rewrite Pos.compare_refl; reflexivity.
Qed.

Lemma SFltb_trans (x y z : spec_float) :
  SFltb x y = true -> SFltb y z = true -> SFltb x z = true.
Proof.
  unfold SFltb, SFcompare.
  destruct x as [sx | sx | | sx mx ex], y as [sy | sy | | sy my ey],
    z as [sz | sz | | sz mz ez];
    try discriminate; try reflexivity;
    repeat match goal with s : bool |- _ => destruct s end;
    try discriminate; try reflexivity;
    change (Pos.compare_cont Eq) with Pos.compare;
    repeat match goal with
           | |- context [Z.compare ?a ?b] => destruct (Z.compare_spec a b)
           | |- context [Pos.compare ?a ?b] => destruct (Pos.compare_spec a b)
           end;
    cbn; try discriminate; try reflexivity; intros; try lia.
Qed.

(** [>] on Python floats is irreflexive and transitive, NaN included. *)
Lemma py_gt_irrefl (x : float) : py_gt x x = false.
Proof. unfold py_gt. rewrite ltb_spec. apply SFltb_irrefl. Qed.

Lemma py_gt_trans (x y z : float) :
  py_gt x y = true -> py_gt y z = true -> py_gt x z = true.
Proof.
  unfold py_gt. rewrite !ltb_spec. intros H1 H2.
  eapply SFltb_trans; eassumption.
Qed.

Lemma py_gt_asym (x y : float) : py_gt x y = true -> py_gt y x = false.
Proof.
  intros H. destruct (py_gt y x) eqn:E; [| reflexivity].
  pose proof (py_gt_trans _ _ _ H E) as C. rewrite py_gt_irrefl in C.
  discriminate.
Qed.

(** If [y] does not exceed [x] and [z] exceeds [x], then [y] does not
    exceed [z]. *)
Lemma py_gt_blocked (x y z : float) :
  py_gt y x = false -> py_gt z x = true -> py_gt y z = false.
Proof.
  intros H1 H2. destruct (py_gt y z) eqn:E; [| reflexivity].
  rewrite (py_gt_trans _ _ _ E H2) in H1. discriminate.
Qed.

(** [max] on a non-empty list returns one of its items, and no item
    compares greater than it. *)
Lemma py_max_spec (xs : list float) :
  forall x : float,
    In (py_max x xs) (x :: xs)
    /\ (py_max x xs = x \/ py_gt (py_max x xs) x = true)
    /\ forall y, In y (x :: xs) -> py_gt y (py_max x xs) = false.
Proof.
  unfold py_max. induction xs as [| y ys IH]; intros x; cbn [fold_left].
  - split; [left; reflexivity | split; [left; reflexivity |]].
    intros z [<- | []]. apply py_gt_irrefl.
  - destruct (IH (py_max2 x y)) as (Hin & Hge & Hmax).
    unfold py_max2 in *. destruct (py_gt y x) eqn:E.
    + split; [right; exact Hin | split].
      * right. destruct Hge as [-> | Hge]; [exact E |].
        eapply py_gt_trans; eassumption.
      * intros z [<- | Hz]; [| apply Hmax; exact Hz].
        destruct Hge as [-> | Hge]; [apply py_gt_asym; exact E |].
        apply py_gt_asym. eapply py_gt_trans; eassumption.
    + split; [destruct Hin as [Hin | Hin]; [left; exact Hin | right; right; exact Hin]
             | split; [exact Hge |]].
      intros z [<- | [<- | Hz]].
      * apply Hmax. left; reflexivity.
      * destruct Hge as [-> | Hge]; [exact E |].
        eapply py_gt_blocked; eassumption.
      * apply Hmax. right; exact Hz.
Qed.

(** ** The greedy scan *)

Section Greedy.
Variable M : Model.
Variable U : Solver.Table.
Variable s : State.

(** The scan fails exactly when some q-value cannot be computed. *)
Lemma greedy_scan_total :
  forall (acts : list Action) (qs : list float) (b : option Action) (q0 : float),
    Solver.action_values M U s acts = Ok qs ->
    exists r, Solver.greedy_scan M U s acts b q0 = Ok r.
Proof.
  induction acts as [| a acts IH]; intros qs b q0 H; [eexists; reflexivity |].
  cbn [Solver.action_values Solver.greedy_scan] in *.
  apply bind_ok_inv in H. destruct H as (q & -> & H).
  apply bind_ok_inv in H. destruct H as (qs' & H & _). cbn [bind].
  destruct (py_gt q q0); eapply IH; exact H.
Qed.

Lemma greedy_scan_spec :
  forall (acts : list Action) (b r : option Action) (q0 : float),
    Solver.greedy_scan M U s acts b q0 = Ok r ->
    exists qs qr,
      Solver.action_values M U s acts = Ok qs
      /\ (forall q, In q qs -> py_gt q qr = false)
      /\ ((r = b /\ qr = q0)
          \/ exists i a,
               nth_error acts i = Some a /\ nth_error qs i = Some qr
               /\ r = Some a /\ py_gt qr q0 = true
               /\ forall j q, (j < i)%nat -> nth_error qs j = Some q -> q <> qr).
Proof.
  induction acts as [| a acts IH]; intros b r q0 H.
  - inversion H; subst. exists [], q0. split; [reflexivity |].
    split; [intros q [] | left; auto].
  - cbn [Solver.greedy_scan Solver.action_values] in *.
    apply bind_ok_inv in H. destruct H as (q & Hq & H). rewrite Hq. cbn [bind].
    destruct (py_gt q q0) eqn:E.
    + destruct (IH _ _ _ H) as (qs & qr & -> & Hmax & Hcase).
      exists (q :: qs), qr. split; [reflexivity |].
      destruct Hcase as [(-> & ->) | (i & a' & Ha & Hqi & -> & Hgt & Hfirst)].
      * split.
        -- intros y [<- | Hy]; [apply py_gt_irrefl | apply Hmax; exact Hy].
        -- right. exists O, a. repeat split; auto. intros j y Hj. lia.
      * split.
        -- intros y [<- | Hy]; [apply py_gt_asym; exact Hgt | apply Hmax; exact Hy].
        -- right. exists (S i), a'. repeat split; auto.
           ++ eapply py_gt_trans; eassumption.
           ++ intros [| j] y Hj Hy; cbn in Hy.
              ** inversion Hy; subst. intros ->.
                 rewrite py_gt_irrefl in Hgt. discriminate.
              ** apply (Hfirst j y); [lia | exact Hy].
    + destruct (IH _ _ _ H) as (qs & qr & -> & Hmax & Hcase).
      exists (q :: qs), qr. split; [reflexivity |].
      destruct Hcase as [(-> & ->) | (i & a' & Ha & Hqi & -> & Hgt & Hfirst)].
      * split.
        -- intros y [<- | Hy]; [exact E | apply Hmax; exact Hy].
        -- left; auto.
      * split.
        -- intros y [<- | Hy]; [| apply Hmax; exact Hy].
           eapply py_gt_blocked; eassumption.
        -- right. exists (S i), a'. repeat split; auto.
           intros [| j] y Hj Hy; cbn in Hy.
           ++ inversion Hy; subst. intros ->. congruence.
           ++ apply (Hfirst j y); [lia | exact Hy].
Qed.
End Greedy.

(** X7.  The greedy scan succeeds exactly when all q-values of the state can
    be computed.  It returns [None] only if no q-value compares greater than
    minus infinity (no action at all, or only NaN and minus infinity).
    Otherwise it returns an action of the state whose q-value is not exceeded
    by the q-value of any other action, and which is the first action in
    enumeration order to reach that q-value. *)
Theorem greedy_picks_first_maximal_action :
  forall (M : Model) (U : Solver.Table) (s : State),
    is_ok (Solver.greedy M U s)
    = is_ok (Solver.action_values M U s (m_getActions M s))
    /\ forall r,
         Solver.greedy M U s = Ok r ->
         exists qs,
           Solver.action_values M U s (m_getActions M s) = Ok qs
           /\ match r with
              | None => forall q, In q qs -> py_gt q neg_infinity = false
              | Some a =>
                  exists i q,
                    nth_error (m_getActions M s) i = Some a
                    /\ nth_error qs i = Some q
                    /\ py_gt q neg_infinity = true
                    /\ (forall q', In q' qs -> py_gt q' q = false)
                    /\ (forall j q', (j < i)%nat ->
                                     nth_error qs j = Some q' -> q' <> q)
              end.
Proof.
  intros M U s. split.
  - unfold Solver.greedy.
    destruct (Solver.greedy_scan M U s (m_getActions M s) None neg_infinity)
      as [r | e] eqn:E.
    + destruct (greedy_scan_spec M U s _ _ _ _ E) as (qs & _ & -> & _).
      reflexivity.
    + destruct (Solver.action_values M U s (m_getActions M s)) as [qs | e'] eqn:A;
        [| reflexivity].
      destruct (greedy_scan_total M U s _ _ None neg_infinity A) as (r & Hr).
      congruence.
  - intros r H. unfold Solver.greedy in H.
    destruct (greedy_scan_spec M U s _ _ _ _ H) as (qs & qr & Hqs & Hmax & Hcase).
    exists qs. split; [exact Hqs |].
    destruct Hcase as [(-> & ->) | (i & a & Ha & Hq & -> & Hgt & Hfirst)].
    + exact Hmax.
    + exists i, qr. auto.
Qed.

Lemma greedy_picks_first_maximal_action_witness :
  exists qs,
    Solver.action_values (documented Gridworld.init)
      (Solver.zero_table (Gridworld.getStates Gridworld.init)) (0, 0)
      (m_getActions (documented Gridworld.init) (0, 0)) = Ok qs
    /\ exists i q,
         nth_error (m_getActions (documented Gridworld.init) (0, 0)) i
         = Some "North"
         /\ nth_error qs i = Some q
         /\ py_gt q neg_infinity = true.
Proof.
  destruct (proj2 (greedy_picks_first_maximal_action
                     (documented Gridworld.init)
                     (Solver.zero_table (Gridworld.getStates Gridworld.init))
                     (0, 0)) (Some "North"))
    as (qs & Hqs & i & q & Ha & Hq & Hgt & _); [vm_compute; reflexivity |].
  exists qs. split; [exact Hqs |]. exists i, q. auto.
Defined.

(** ** The size of delta and of the backed-up value *)

Lemma delta_bounds (M : Model) (discount : float) (U U' : Solver.Table)
      (delta : float) :
  Solver.vi_sweep M discount U = Ok (U', delta) ->
  py_lt delta 0%float = false
  /\ (forall s, In s (m_getStates M) -> m_isTerminal M s = false ->
                py_gt (change U U' s) delta = false)
  /\ (delta = 0%float
      \/ exists s, In s (m_getStates M) /\ m_isTerminal M s = false
                   /\ delta = change U U' s).
Proof.
  intros H. unfold Solver.vi_sweep in H.
  destruct (sweep_invariant M discount U _ _ _ _ _ H) as (_ & _ & ->).
  fold (py_max 0%float (map (change U U') (non_terminal M (m_getStates M)))).
  destruct (py_max_spec (map (change U U') (non_terminal M (m_getStates M)))
              0%float) as (Hin & _ & Hmax).
  split; [| split].
  - apply (Hmax 0%float). left; reflexivity.
  - intros s Hs Ht. apply Hmax. right. apply in_map.
    unfold non_terminal. apply filter_In. rewrite Ht. auto.
  - destruct Hin as [Hin | Hin]; [left; symmetry; exact Hin |].
    right. apply in_map_iff in Hin. destruct Hin as (s & Hs & Hin).
    unfold non_terminal in Hin. apply filter_In in Hin.
    destruct Hin as (Hin & Ht). apply negb_true_iff in Ht.
    exists s. auto.
Qed.

(** X8.  In a completed sweep of [value_iteration], [delta] bounds the change
    of every non-terminal state: no such change compares greater than
    [delta], [delta] is not below 0, and [delta] is either 0 or the change of
    one of the non-terminal states. *)
Theorem delta_bounds_every_change :
  forall (M : Model) (discount : float) (U U' : Solver.Table) (delta : float),
    Solver.vi_sweep M discount U = Ok (U', delta) ->
    py_lt delta 0%float = false
    /\ (forall s, In s (m_getStates M) -> m_isTerminal M s = false ->
                  py_gt (change U U' s) delta = false)
    /\ (delta = 0%float
        \/ exists s, In s (m_getStates M) /\ m_isTerminal M s = false
                     /\ delta = change U U' s).
Proof. exact delta_bounds. Qed.

Lemma delta_bounds_every_change_witness :
  py_lt 0.04%float 0%float = false.
Proof.
  assert (E : Solver.vi_sweep (documented Gridworld.init) 0.9%float
                (Solver.zero_table (Gridworld.getStates Gridworld.init))
              = Ok ([((0,0), (-0.04)%float); ((0,1), (-0.04)%float);
                     ((0,2), (-0.04)%float); ((0,3), 1%float);
                     ((1,0), (-0.04)%float); ((1,2), (-0.04)%float);
                     ((1,3), (-1)%float); ((2,0), (-0.04)%float);
                     ((2,1), (-0.04)%float); ((2,2), (-0.04)%float);
                     ((2,3), (-0.04)%float)], 0.04%float))
    by (vm_compute; reflexivity).
  exact (proj1 (delta_bounds_every_change _ _ _ _ _ E)).
Defined.

(** The backup of a non-terminal state is built on a maximal q-value. *)
Lemma backup_maximal :
  forall (M : Model) (discount : float) (U : Solver.Table) (s : State) (v : float),
    m_isTerminal M s = false ->
    backup M discount U s = Ok v ->
    exists qs,
      Solver.action_values M U s (m_getActions M s) = Ok qs
      /\ List.length qs = List.length (m_getActions M s)
      /\ (qs = [] -> v = (m_getRewards M s + discount * 0)%float)
      /\ (qs <> [] ->
          exists q, In q qs
                    /\ (forall q', In q' qs -> py_gt q' q = false)
                    /\ v = (m_getRewards M s + discount * q)%float).
Proof.
  intros M discount U s v Ht H. unfold backup in H. rewrite Ht in H.
  apply bind_ok_inv in H. destruct H as (qs & Hqs & H). inversion H; subst v.
  exists qs. split; [exact Hqs |]. split; [| split].
  - clear H. revert qs Hqs. induction (m_getActions M s) as [| a acts IH];
      intros qs Hqs; cbn [Solver.action_values] in Hqs.
    + inversion Hqs. reflexivity.
    + apply bind_ok_inv in Hqs. destruct Hqs as (q & _ & Hqs).
      apply bind_ok_inv in Hqs. destruct Hqs as (qs' & Hqs' & Hqs).
      inversion Hqs. simpl. rewrite (IH _ Hqs'). reflexivity.
  - intros ->. reflexivity.
  - intros Hne. destruct qs as [| q0 rest]; [congruence |].
    cbn [Solver.best_of].
    destruct (py_max_spec rest q0) as (Hin & _ & Hmax).
    exists (py_max q0 rest). auto.
Qed.

(** X9.  In a completed sweep of [value_iteration], the value written for a
    non-terminal state of the model with at least one action is
    [reward + discount * q], where [q] is the q-value of one of the state's
    actions, computed from the previous table, and no action of the state has
    a q-value that compares greater than [q]; with no action at all it is
    [reward + discount * 0]. *)
Theorem backup_uses_a_maximal_q_value :
  forall (M : Model) (discount : float) (U U' : Solver.Table) (delta : float)
         (s : State),
    Solver.vi_sweep M discount U = Ok (U', delta) ->
    In s (m_getStates M) ->
    m_isTerminal M s = false ->
    exists qs,
      Solver.action_values M U s (m_getActions M s) = Ok qs
      /\ List.length qs = List.length (m_getActions M s)
      /\ (qs = [] ->
          dict_get state_eqb U' s = Ok (m_getRewards M s + discount * 0)%float)
      /\ (qs <> [] ->
          exists q, In q qs
                    /\ (forall q', In q' qs -> py_gt q' q = false)
                    /\ dict_get state_eqb U' s
                       = Ok (m_getRewards M s + discount * q)%float).
Proof.
  intros M discount U U' delta s H Hs Ht. unfold Solver.vi_sweep in H.
  destruct (sweep_invariant M discount U _ _ _ _ _ H) as (A & _ & _).
  destruct (A s Hs) as (v & Hv & Hf).
  destruct (backup_maximal M discount U s v Ht Hv) as (qs & Hqs & Hl & H0 & H1).
  exists qs. unfold dict_get. rewrite Hf.
  split; [exact Hqs |]. split; [exact Hl |]. split.
  - intros E. rewrite (H0 E). reflexivity.
  - intros E. destruct (H1 E) as (q & Hq & Hmax & ->). exists q. auto.
Qed.

Lemma backup_uses_a_maximal_q_value_witness :
  exists U' delta qs q,
    Solver.vi_sweep (documented Gridworld.init) 0.9%float
      [((0,0), (-0.04)%float); ((0,1), (-0.04)%float);
          ((0,2), (-0.04)%float); ((0,3), 1%float);
          ((1,0), (-0.04)%float); ((1,2), (-0.04)%float);
          ((1,3), (-1)%float); ((2,0), (-0.04)%float);
          ((2,1), (-0.04)%float); ((2,2), (-0.04)%float);
          ((2,3), (-0.04)%float)]
    = Ok (U', delta)
    /\ Solver.action_values (documented Gridworld.init)
         [((0,0), (-0.04)%float); ((0,1), (-0.04)%float);
          ((0,2), (-0.04)%float); ((0,3), 1%float);
          ((1,0), (-0.04)%float); ((1,2), (-0.04)%float);
          ((1,3), (-1)%float); ((2,0), (-0.04)%float);
          ((2,1), (-0.04)%float); ((2,2), (-0.04)%float);
          ((2,3), (-0.04)%float)]
         (0, 2) (m_getActions (documented Gridworld.init) (0, 2)) = Ok qs
    /\ In q qs
    /\ py_gt q 0.5%float = true
    /\ dict_get state_eqb U' (0, 2) = Ok ((-0.04) + 0.9 * q)%float.
Proof.
  destruct (Solver.vi_sweep (documented Gridworld.init) 0.9%float
      [((0,0), (-0.04)%float); ((0,1), (-0.04)%float);
          ((0,2), (-0.04)%float); ((0,3), 1%float);
          ((1,0), (-0.04)%float); ((1,2), (-0.04)%float);
          ((1,3), (-1)%float); ((2,0), (-0.04)%float);
          ((2,1), (-0.04)%float); ((2,2), (-0.04)%float);
          ((2,3), (-0.04)%float)])
    as [[U' delta] | e] eqn:E; [| vm_compute in E; discriminate E].
  destruct (backup_uses_a_maximal_q_value _ _ _ _ _ (0, 2) E)
    as (qs & Hqs & _ & _ & H1); [vm_compute; auto | reflexivity |].
  exists U', delta, qs.
  pose proof Hqs as Hqs'. vm_compute in Hqs'.
  inversion Hqs'; subst qs; clear Hqs'.
  destruct H1 as (q & Hq & Hmax & Hv); [discriminate |].
  exists q. split; [reflexivity |]. split; [exact Hqs |].
  split; [exact Hq |]. split; [| exact Hv].
  specialize (Hmax _ (or_intror (or_intror (or_introl eq_refl)))).
  destruct Hq as [<- | [<- | [<- | [<- | []]]]];
    first [ vm_compute; reflexivity
          | exfalso; vm_compute in Hmax; discriminate Hmax ].
Defined.


(** ** One evaluation sweep of policy iteration *)

Section Evaluation.
Variable M : Model.
Variable discount : float.
Variable policy : Solver.Policy.
Variable U : Solver.Table.

Lemma eval_state_backup (U_new : Solver.Table) (delta : float) (s : State) :
  Solver.eval_state M discount policy U (U_new, delta) s
  = (v <- eval_backup M discount policy U s ;;
     if m_isTerminal M s then Ok (dict_set state_eqb U_new s v, delta)
     else old <- dict_get state_eqb U s ;;
          Ok (dict_set state_eqb U_new s v, py_max2 delta (abs (v - old)))).
Proof.
  unfold Solver.eval_state, eval_backup.
  destruct (m_isTerminal M s); [reflexivity |].
  destruct (dict_get state_eqb policy s) as [action | e]; [| reflexivity].
  cbn [bind].
  destruct (Solver.q_value_of M U s action) as [q | e]; [| reflexivity].
  cbn [bind]. rewrite dict_get_set_same. reflexivity.
Qed.

Lemma eval_sweep_invariant :
  forall (l : list State) (U_new U' : Solver.Table) (d delta : float),
    Solver.for_states (Solver.eval_state M discount policy U) l (U_new, d)
    = Ok (U', delta) ->
    (forall s, In s l ->
       exists v, eval_backup M discount policy U s = Ok v
                 /\ dict_find state_eqb U' s = Some v)
    /\ (forall s, ~ In s l ->
          dict_find state_eqb U' s = dict_find state_eqb U_new s)
    /\ delta = fold_left py_max2 (map (change U U') (non_terminal M l)) d.
Proof.
  induction l as [| x l IH]; intros U_new U' d delta H.
  - inversion H; subst. repeat split; intros; try contradiction; reflexivity.
  - rewrite for_states_cons, eval_state_backup in H.
    destruct (eval_backup M discount policy U x) as [v | e] eqn:Hv;
      [| discriminate].
    cbn [bind] in H.
    assert (Hx : forall U1 d1,
               Solver.for_states (Solver.eval_state M discount policy U) l (U1, d1)
               = Ok (U', delta) ->
               U1 = dict_set state_eqb U_new x v ->
               dict_find state_eqb U' x = Some v
               /\ (forall s, In s (x :: l) ->
                     exists v, eval_backup M discount policy U s = Ok v
                               /\ dict_find state_eqb U' s = Some v)
               /\ (forall s, ~ In s (x :: l) ->
                     dict_find state_eqb U' s = dict_find state_eqb U_new s)
               /\ delta = fold_left py_max2 (map (change U U') (non_terminal M l)) d1).
    { intros U1 d1 H1 ->. destruct (IH _ _ _ _ H1) as (Ia & Ib & Ic).
      assert (Fx : dict_find state_eqb U' x = Some v).
      { destruct (mem_state x l) eqn:E.
        - apply mem_state_In in E. destruct (Ia x E) as (v' & Hv' & Hf).
          congruence.
        - assert (~ In x l) by (rewrite <- mem_state_In; congruence).
          rewrite Ib by assumption. apply dict_find_set_same. }
      repeat split; auto.
      - intros s [<- | Hs]; [eauto | auto].
      - intros s Hs. simpl in Hs. rewrite Ib by tauto.
        apply dict_find_set_other. intros ->. tauto. }
    unfold non_terminal. cbn [filter].
    destruct (m_isTerminal M x) eqn:Ht; cbn [negb].
    + destruct (Hx _ _ H eq_refl) as (_ & Ha & Hb & Hc). auto.
    + unfold dict_get in H.
      destruct (dict_find state_eqb U x) as [old |] eqn:Ho; [| discriminate].
      cbn [bind] in H.
      destruct (Hx _ _ H eq_refl) as (Fx & Ha & Hb & Hc).
      repeat split; auto.
      cbn [map fold_left]. unfold change at 2.
      rewrite (value_at_find U' x v Fx), (value_at_find U x old Ho).
      exact Hc.
Qed.
End Evaluation.

Lemma eval_sweep_spec (M : Model) (discount : float) (policy : Solver.Policy)
      (U U' : Solver.Table) (delta : float) :
  Solver.eval_sweep M discount policy U = Ok (U', delta) ->
  (forall s, In s (m_getStates M) ->
             eval_backup M discount policy U s = dict_get state_eqb U' s
             /\ is_ok (dict_get state_eqb U' s) = true)
  /\ (forall s, ~ In s (m_getStates M) ->
                dict_get state_eqb U' s = dict_get state_eqb U s)
  /\ delta = py_max 0%float (map (change U U') (non_terminal M (m_getStates M))).
Proof.
  intros H. unfold Solver.eval_sweep in H.
  destruct (eval_sweep_invariant M discount policy U _ _ _ _ _ H) as (A & B & C).
  split; [| split].
  - intros s Hs. destruct (A s Hs) as (v & Hv & Hf).
    unfold dict_get. rewrite Hf. auto.
  - intros s Hs. unfold dict_get. rewrite (B s Hs). reflexivity.
  - exact C.
Qed.

(** X10.  A completed evaluation sweep of [policy_iteration] follows the
    fixed policy and reads the previous table only: every state of the model
    gets [reward] if it is terminal and [reward + discount * q] otherwise,
    [q] being the q-value of the policy's action computed from the previous
    table; keys outside the state set keep their value; and [delta] is the
    running [max], started at 0, over the changes of the non-terminal
    states. *)
Theorem eval_sweep_follows_policy :
  forall (M : Model) (discount : float) (policy : Solver.Policy)
         (U U' : Solver.Table) (delta : float),
    Solver.eval_sweep M discount policy U = Ok (U', delta) ->
    (forall s, In s (m_getStates M) ->
               eval_backup M discount policy U s = dict_get state_eqb U' s
               /\ is_ok (dict_get state_eqb U' s) = true)
    /\ (forall s, ~ In s (m_getStates M) ->
                  dict_get state_eqb U' s = dict_get state_eqb U s)
    /\ delta = py_max 0%float (map (change U U') (non_terminal M (m_getStates M))).
Proof. exact eval_sweep_spec. Qed.

Lemma eval_sweep_follows_policy_witness :
  0.04%float
  = py_max 0%float
      (map (change (Solver.zero_table (Gridworld.getStates Gridworld.init))
              [((0,0), (-0.04)%float); ((0,1), (-0.04)%float);
               ((0,2), (-0.04)%float); ((0,3), 1%float);
               ((1,0), (-0.04)%float); ((1,2), (-0.04)%float);
               ((1,3), (-1)%float); ((2,0), (-0.04)%float);
               ((2,1), (-0.04)%float); ((2,2), (-0.04)%float);
               ((2,3), (-0.04)%float)])
           (non_terminal (documented Gridworld.init)
              (m_getStates (documented Gridworld.init)))).
Proof.
  assert (E : Solver.eval_sweep (documented Gridworld.init) 0.9%float
                (map (fun s => (s, if Gridworld.isTerminal Gridworld.init s
                                   then None else Some "North"))
                     (Gridworld.getStates Gridworld.init))
                (Solver.zero_table (Gridworld.getStates Gridworld.init))
              = Ok ([((0,0), (-0.04)%float); ((0,1), (-0.04)%float);
                     ((0,2), (-0.04)%float); ((0,3), 1%float);
                     ((1,0), (-0.04)%float); ((1,2), (-0.04)%float);
                     ((1,3), (-1)%float); ((2,0), (-0.04)%float);
                     ((2,1), (-0.04)%float); ((2,2), (-0.04)%float);
                     ((2,3), (-0.04)%float)], 0.04%float))
    by (vm_compute; reflexivity).
  exact (proj2 (proj2 (eval_sweep_follows_policy _ _ _ _ _ _ E))).
Defined.

(** ** The improvement step of policy iteration *)

Lemma action_eqb_eq (a b : option Action) :
  Solver.action_eqb a b = true <-> a = b.
Proof.
  destruct a as [x |], b as [y |]; simpl.
  - rewrite String.eqb_eq. split; congruence.
  - split; discriminate.
  - split; discriminate.
  - split; reflexivity.
Qed.

Section Improvement.
Variable M : Model.
Variable U : Solver.Table.

(** What the improvement loop does over a list of states, started from the
    policy [p] and the flag [f]. *)
Lemma improve_invariant :
  forall (l : list State) (p p' : Solver.Policy) (f f' : bool),
    Solver.for_states (Solver.improve_state M U) l (p, f) = Ok (p', f') ->
    (forall s, In s l -> m_isTerminal M s = false ->
       exists a, Solver.greedy M U s = Ok a /\ dict_find state_eqb p' s = Some a)
    /\ (forall s, ~ (In s l /\ m_isTerminal M s = false) ->
          dict_find state_eqb p' s = dict_find state_eqb p s)
    /\ (f' = true <->
        f = true
        /\ forall s, In s l -> m_isTerminal M s = false ->
             exists a, Solver.greedy M U s = Ok a
                       /\ dict_find state_eqb p s = Some a).
Proof.
  induction l as [| x l IH]; intros p p' f f' H.
  - inversion H; subst. split; [intros s [] |]. split; [reflexivity |].
    split; [intros ->; split; [reflexivity | intros s []] | tauto].
  - rewrite for_states_cons in H. unfold Solver.improve_state at 1 in H.
    destruct (m_isTerminal M x) eqn:Ht.
    + cbn [bind] in H. destruct (IH _ _ _ _ H) as (A & B & C).
      split; [| split].
      * intros s [<- | Hs] Hnt; [congruence | auto].
      * intros s Hs. apply B. intros [Hin Hnt]. apply Hs.
        split; [right; assumption | assumption].
      * rewrite C. split; intros [Hf Hall]; (split; [exact Hf |]).
        -- intros s [<- | Hs] Hnt; [congruence | auto].
        -- intros s Hs Hnt. apply Hall; [right |]; assumption.
    + unfold dict_get in H.
      destruct (dict_find state_eqb p x) as [old |] eqn:Ho; [| discriminate].
      cbn [bind] in H.
      destruct (Solver.greedy M U x) as [best | e] eqn:Hg; [| discriminate].
      cbn [bind] in H.
      assert (Hother : forall s, s <> x ->
                 dict_find state_eqb (dict_set state_eqb p x best) s
                 = dict_find state_eqb p s).
      { intros s Hs. apply dict_find_set_other. congruence. }
      assert (Hstep : exists f1,
                 Solver.for_states (Solver.improve_state M U) l
                   (dict_set state_eqb p x best, f1) = Ok (p', f')
                 /\ f1 = (Solver.action_eqb old best && f)%bool).
      { destruct (Solver.action_eqb old best); cbn [negb bind andb] in H |- *;
          eauto. }
      destruct Hstep as (f1 & H1 & Hf1). clear H.
      destruct (IH _ _ _ _ H1) as (A & B & C).
      assert (Fx : dict_find state_eqb p' x = Some best).
      { destruct (mem_state x l) eqn:E.
        - apply mem_state_In in E. destruct (A x E Ht) as (a & Ha & Hf).
          congruence.
        - rewrite B; [apply dict_find_set_same |].
          intros [Hin _]. apply mem_state_In in Hin. congruence. }
      split; [| split].
      * intros s [<- | Hs] Hnt; [eauto | auto].
      * intros s Hs. assert (Hne : s <> x).
        { intros ->. apply Hs. split; [left; reflexivity | assumption]. }
        rewrite B; [apply Hother; exact Hne |].
        intros [Hin Hnt]. apply Hs. split; [right; assumption | assumption].
      * rewrite C, Hf1, andb_true_iff, action_eqb_eq.
        split.
        -- intros [[-> Hf] Hall]. split; [exact Hf |].
           intros s [<- | Hs] Hnt; [eauto |].
           destruct (Hall s Hs Hnt) as (a & Ha & Hfa). exists a.
           split; [exact Ha |].
           destruct (state_eqb s x) eqn:E.
           ++ apply state_eqb_eq in E. subst s. congruence.
           ++ apply state_eqb_neq in E. rewrite <- Hother by exact E. exact Hfa.
        -- intros [Hf Hall].
           destruct (Hall x (or_introl eq_refl) Ht) as (a & Ha & Hfa).
           assert (old = best) by congruence. subst old.
           split; [split; [reflexivity | exact Hf] |].
           intros s Hs Hnt.
           destruct (Hall s (or_intror Hs) Hnt) as (a' & Ha' & Hfa').
           exists a'. split; [exact Ha' |].
           destruct (state_eqb s x) eqn:E.
           ++ apply state_eqb_eq in E. subst s.
              rewrite dict_find_set_same. congruence.
           ++ apply state_eqb_neq in E. rewrite Hother by exact E. exact Hfa'.
Qed.

Lemma improve_spec (policy policy' : Solver.Policy) (stable : bool) :
  Solver.improve M U policy = Ok (policy', stable) ->
  (forall s, In s (m_getStates M) -> m_isTerminal M s = false ->
             Solver.greedy M U s = dict_get state_eqb policy' s
             /\ is_ok (Solver.greedy M U s) = true)
  /\ (forall s, ~ (In s (m_getStates M) /\ m_isTerminal M s = false) ->
                dict_get state_eqb policy' s = dict_get state_eqb policy s)
  /\ (stable = true <->
      forall s, In s (m_getStates M) -> m_isTerminal M s = false ->
                dict_get state_eqb policy s = Solver.greedy M U s).
Proof.
  intros H. unfold Solver.improve in H.
  destruct (improve_invariant _ _ _ _ _ H) as (A & B & C).
  split; [| split].
  - intros s Hs Hnt. destruct (A s Hs Hnt) as (a & Ha & Hf).
    unfold dict_get. rewrite Hf, Ha. auto.
  - intros s Hs. unfold dict_get. rewrite (B s Hs). reflexivity.
  - rewrite C. split.
    + intros [_ Hall] s Hs Hnt. destruct (Hall s Hs Hnt) as (a & Ha & Hf).
      unfold dict_get. rewrite Hf, Ha. reflexivity.
    + intros Hall. split; [reflexivity |]. intros s Hs Hnt.
      destruct (A s Hs Hnt) as (a & Ha & _). exists a. split; [exact Ha |].
      specialize (Hall s Hs Hnt). rewrite Ha in Hall. unfold dict_get in Hall.
      destruct (dict_find state_eqb policy s); [congruence | discriminate].
Qed.
End Improvement.

(** X11.  A completed improvement step of [policy_iteration] replaces the
    entry of every non-terminal state of the model by the action the greedy
    scan selects against the evaluated table, leaves every other entry as it
    was, and reports the policy stable exactly when every non-terminal state
    already held that action, in which case the policy is unchanged. *)
Theorem improvement_is_greedy_and_reports_change :
  forall (M : Model) (U : Solver.Table) (policy policy' : Solver.Policy)
         (stable : bool),
    Solver.improve M U policy = Ok (policy', stable) ->
    (forall s, In s (m_getStates M) -> m_isTerminal M s = false ->
               Solver.greedy M U s = dict_get state_eqb policy' s)
    /\ (forall s, ~ (In s (m_getStates M) /\ m_isTerminal M s = false) ->
                  dict_get state_eqb policy' s = dict_get state_eqb policy s)
    /\ (stable = true <->
        forall s, In s (m_getStates M) -> m_isTerminal M s = false ->
                  dict_get state_eqb policy s = Solver.greedy M U s)
    /\ (stable = true ->
        forall s, dict_get state_eqb policy' s = dict_get state_eqb policy s).
Proof.
  intros M U policy policy' stable H.
  destruct (improve_spec M U _ _ _ H) as (A & B & C).
  split; [| split; [| split]].
  - intros s Hs Hnt. apply A; assumption.
  - exact B.
  - exact C.
  - intros Hst s. destruct (mem_state s (m_getStates M)) eqn:E.
    + apply mem_state_In in E. destruct (m_isTerminal M s) eqn:Ht.
      * apply B. intros [_ Hnt]. congruence.
      * rewrite <- (proj1 (A s E Ht)). symmetry. apply C; assumption.
    + apply B. intros [Hin _]. apply mem_state_In in Hin. congruence.
Qed.

Lemma improvement_is_greedy_and_reports_change_witness :
  exists policy' stable,
    Solver.improve (documented Gridworld.init)
      [((0,0), (-0.04)%float); ((0,1), (-0.04)%float); ((0,2), (-0.04)%float);
       ((0,3), 1%float); ((1,0), (-0.04)%float); ((1,2), (-0.04)%float);
       ((1,3), (-1)%float); ((2,0), (-0.04)%float); ((2,1), (-0.04)%float);
       ((2,2), (-0.04)%float); ((2,3), (-0.04)%float)]
      (map (fun s => (s, if Gridworld.isTerminal Gridworld.init s
                         then None else Some "North"))
           (Gridworld.getStates Gridworld.init))
    = Ok (policy', stable)
    /\ Solver.greedy (documented Gridworld.init)
         [((0,0), (-0.04)%float); ((0,1), (-0.04)%float); ((0,2), (-0.04)%float);
          ((0,3), 1%float); ((1,0), (-0.04)%float); ((1,2), (-0.04)%float);
          ((1,3), (-1)%float); ((2,0), (-0.04)%float); ((2,1), (-0.04)%float);
          ((2,2), (-0.04)%float); ((2,3), (-0.04)%float)] (0, 2)
       = dict_get state_eqb policy' (0, 2).
Proof.
  destruct (Solver.improve (documented Gridworld.init)
      [((0,0), (-0.04)%float); ((0,1), (-0.04)%float); ((0,2), (-0.04)%float);
       ((0,3), 1%float); ((1,0), (-0.04)%float); ((1,2), (-0.04)%float);
       ((1,3), (-1)%float); ((2,0), (-0.04)%float); ((2,1), (-0.04)%float);
       ((2,2), (-0.04)%float); ((2,3), (-0.04)%float)]
      (map (fun s => (s, if Gridworld.isTerminal Gridworld.init s
                         then None else Some "North"))
           (Gridworld.getStates Gridworld.init)))
    as [[policy' stable] | e] eqn:E; [| vm_compute in E; discriminate E].
  exists policy', stable. split; [reflexivity |].
  apply (improvement_is_greedy_and_reports_change _ _ _ _ _ E);
    [vm_compute; auto 20 | reflexivity].
Defined.

(** ** The result of policy iteration *)

Section PolicyIterationResult.
Variable M : Model.
Variables (discount epsilon : float).
Variable max_iterations : Z.
Variable draw : nat -> nat.

(** The table an evaluation loop returns is the table it started from, or
    the outcome of a completed evaluation sweep. *)
Lemma eval_loop_inv (policy : Solver.Policy) :
  forall (n : nat) (U U' : Solver.Table),
    Solver.eval_loop M discount epsilon policy n U = Ok U' ->
    (n = O /\ U' = U)
    \/ (n <> O /\ exists Up delta,
          Solver.eval_sweep M discount policy Up = Ok (U', delta)).
Proof.
  induction n as [| n IH]; intros U U' H.
  - inversion H. left; auto.
  - right. split; [discriminate |]. cbn [Solver.eval_loop] in H.
    apply bind_ok_inv in H. destruct H as ([U1 delta] & Hs & H).
    cbn beta iota in H.
    apply bind_ok_inv in H. destruct H as (thr & Ht & H).
    destruct (py_lt delta thr).
    + inversion H; subst. eauto.
    + destruct (IH _ _ H) as [(-> & ->) | (_ & Hex)]; eauto.
Qed.

(** A run of the outer loop that makes at least one round ends with an
    evaluation followed by an improvement, and never touches the policy
    entry of a terminal state or of a key outside the state set. *)
Lemma pi_loop_inv :
  forall (n : nat) (p policy : Solver.Policy) (U0 U : Solver.Table),
    Solver.pi_loop M discount max_iterations epsilon n p U0 = Ok (policy, U) ->
    (n = O /\ policy = p /\ U = U0)
    \/ (n <> O
        /\ (forall s, ~ (In s (m_getStates M) /\ m_isTerminal M s = false) ->
              dict_get state_eqb policy s = dict_get state_eqb p s)
        /\ exists p_prev U_prev stable,
             Solver.eval_loop M discount epsilon p_prev
               (Z.to_nat max_iterations) U_prev = Ok U
             /\ Solver.improve M U p_prev = Ok (policy, stable)).
Proof.
  induction n as [| n IH]; intros p policy U0 U H.
  - inversion H. left; auto.
  - right. split; [discriminate |]. cbn [Solver.pi_loop] in H.
    apply bind_ok_inv in H. destruct H as (U1 & He & H).
    apply bind_ok_inv in H. destruct H as ([p1 st] & Hi & H).
    cbn beta iota in H.
    destruct (improve_spec M U1 _ _ _ Hi) as (_ & B & _).
    destruct st.
    + inversion H; subst. split; [exact B | eauto].
    + destruct (IH _ _ _ _ H) as [(-> & -> & ->) | (_ & B' & Hex)].
      * split; [exact B | eauto].
      * split; [| exact Hex]. intros s Hs. rewrite B' by exact Hs. auto.
Qed.

Lemma policy_iteration_inv (policy : Solver.Policy) (U : Solver.Table) :
  Solver.policy_iteration M discount max_iterations epsilon draw
  = Ok (policy, U) ->
  exists p0,
    Solver.init_policy M draw = Ok p0
    /\ Solver.pi_loop M discount max_iterations epsilon
         (Z.to_nat max_iterations) p0 (Solver.zero_table (m_getStates M))
       = Ok (policy, U)
    /\ (forall s, In s (m_getStates M) -> m_isTerminal M s = false ->
          exists a, In a (m_getActions M s)
                    /\ dict_get state_eqb p0 s = Ok (Some a))
    /\ (forall s, In s (m_getStates M) -> m_isTerminal M s = true ->
          dict_get state_eqb p0 s = Ok None)
    /\ (forall s, ~ In s (m_getStates M) ->
          dict_get state_eqb p0 s = Raise KeyError).
Proof.
  intros H. unfold Solver.policy_iteration in H.
  apply bind_ok_inv in H. destruct H as (p0 & Hp & H).
  exists p0. split; [exact Hp |]. split; [exact H |].
  unfold Solver.init_policy in Hp.
  apply bind_ok_inv in Hp. destruct Hp as ([p k] & Hl & Hp).
  inversion Hp; subst p0; clear Hp.
  destruct (init_loop_spec M draw _ _ _ Hl) as (A & B & C).
  cbn [fst] in A, B, C. unfold dict_get.
  split; [| split].
  - intros s Hs Ht. destruct (A s Hs Ht) as (a & Ha & Hf).
    exists a. rewrite Hf. auto.
  - intros s Hs Ht. rewrite (B s Hs Ht). reflexivity.
  - intros s Hs. rewrite (C s Hs). reflexivity.
Qed.
End PolicyIterationResult.

(** X12.  The policy [policy_iteration] returns has an entry for exactly the
    states of the model, and [None] for every terminal state.  With no
    iteration a non-terminal state holds the action drawn for it, one of its
    own actions; with at least one iteration it holds the action the greedy
    scan selects against the returned utility table. *)
Theorem policy_iteration_policy :
  forall (M : Model) (discount epsilon : float) (n : Z) (draw : nat -> nat)
         (policy : Solver.Policy) (U : Solver.Table),
    Solver.policy_iteration M discount n epsilon draw = Ok (policy, U) ->
    (forall s, In s (m_getStates M) -> m_isTerminal M s = true ->
               dict_get state_eqb policy s = Ok None)
    /\ (forall s, ~ In s (m_getStates M) ->
                  dict_get state_eqb policy s = Raise KeyError)
    /\ (n <= 0 ->
        forall s, In s (m_getStates M) -> m_isTerminal M s = false ->
                  exists a, In a (m_getActions M s)
                            /\ dict_get state_eqb policy s = Ok (Some a))
    /\ (1 <= n ->
        forall s, In s (m_getStates M) -> m_isTerminal M s = false ->
                  Solver.greedy M U s = dict_get state_eqb policy s).
Proof.
  intros M discount epsilon n draw policy U H.
  destruct (policy_iteration_inv M discount epsilon n draw policy U H)
    as (p0 & _ & Hl & A & B & C).
  destruct (pi_loop_inv M discount epsilon n _ _ _ _ _ Hl)
    as [(Hn & -> & ->) | (Hn & Keep & p_prev & U_prev & st & _ & Hi)].
  - split; [exact B |]. split; [exact C |]. split; [intros _; exact A | lia].
  - split; [| split; [| split]].
    + intros s Hs Ht. rewrite Keep; [auto |]. intros [_ Hnt]. congruence.
    + intros s Hs. rewrite Keep; [auto |]. intros [Hin _]. contradiction.
    + lia.
    + intros _ s Hs Ht.
      destruct (improve_spec M U _ _ _ Hi) as (G & _ & _).
      apply G; assumption.
Qed.

Lemma policy_iteration_policy_witness :
  exists policy U,
    Solver.policy_iteration (documented Gridworld.init) 0.9%float 2 1e-4%float
      (fun k => k)
    = Ok (policy, U)
    /\ Solver.greedy (documented Gridworld.init) U (2, 0)
       = dict_get state_eqb policy (2, 0).
Proof.
  destruct (Solver.policy_iteration (documented Gridworld.init) 0.9%float 2
              1e-4%float (fun k => k)) as [[policy U] | e] eqn:E;
    [| vm_compute in E; discriminate E].
  exists policy, U. split; [reflexivity |].
  apply (policy_iteration_policy _ _ _ _ _ _ _ E);
    [lia | vm_compute; auto 20 | reflexivity].
Defined.

(** X13.  The utility table [policy_iteration] returns has a value for every
    state of the model.  With no iteration it is the zero table; with at
    least one iteration it is the outcome of a completed evaluation sweep
    under some policy, so every terminal state holds exactly its reward. *)
Theorem policy_iteration_utilities :
  forall (M : Model) (discount epsilon : float) (n : Z) (draw : nat -> nat)
         (policy : Solver.Policy) (U : Solver.Table),
    Solver.policy_iteration M discount n epsilon draw = Ok (policy, U) ->
    (forall s, In s (m_getStates M) -> exists u, dict_get state_eqb U s = Ok u)
    /\ (n <= 0 -> U = Solver.zero_table (m_getStates M))
    /\ (1 <= n ->
        (forall s, In s (m_getStates M) -> m_isTerminal M s = true ->
                   dict_get state_eqb U s = Ok (m_getRewards M s))
        /\ exists p Up, forall s, In s (m_getStates M) ->
             eval_backup M discount p Up s = dict_get state_eqb U s).
Proof.
  intros M discount epsilon n draw policy U H.
  destruct (policy_iteration_inv M discount epsilon n draw policy U H)
    as (p0 & _ & Hl & _).
  destruct (pi_loop_inv M discount epsilon n _ _ _ _ _ Hl)
    as [(Hn & -> & ->) | (Hn & _ & p_prev & U_prev & st & He & _)].
  - split; [| split; [reflexivity | lia]].
    intros s Hs. exists 0%float. unfold dict_get. rewrite zero_table_find.
    apply mem_state_In in Hs. rewrite Hs. reflexivity.
  - destruct (eval_loop_inv M discount epsilon p_prev _ _ _ He)
      as [(Hz & _) | (_ & Up & delta & Hs)]; [contradiction |].
    destruct (eval_sweep_spec M discount p_prev Up U delta Hs) as (A & _ & _).
    split; [| split; [lia |]].
    + intros s Hin. destruct (A s Hin) as (_ & Hok).
      destruct (dict_get state_eqb U s) as [u | e]; [eauto | discriminate].
    + intros _. split.
      * intros s Hin Ht. destruct (A s Hin) as (Hb & _). rewrite <- Hb.
        unfold eval_backup. rewrite Ht. reflexivity.
      * exists p_prev, Up. intros s Hin. apply A; assumption.
Qed.

Lemma policy_iteration_utilities_witness :
  exists policy U,
    Solver.policy_iteration (documented Gridworld.init) 0.9%float 2 1e-4%float
      (fun k => k)
    = Ok (policy, U)
    /\ dict_get state_eqb U (1, 3) = Ok (-1)%float.
Proof.
  destruct (Solver.policy_iteration (documented Gridworld.init) 0.9%float 2
              1e-4%float (fun k => k)) as [[policy U] | e] eqn:E;
    [| vm_compute in E; discriminate E].
  exists policy, U. split; [reflexivity |].
  destruct (policy_iteration_utilities _ _ _ _ _ _ _ E) as (_ & _ & Hn).
  destruct Hn as (Ht & _); [lia |].
  apply (Ht (1, 3)); [vm_compute; auto 20 | reflexivity].
Defined.

(** ** A non-terminal state without actions *)

Lemma init_policy_raises (M : Model) (draw : nat -> nat) :
  (exists s, In s (m_getStates M) /\ choosable M s = false) ->
  Solver.init_policy M draw = Raise IndexError.
Proof.
  intros Hex. unfold Solver.init_policy.
  rewrite (for_states_raise (Solver.init_state M draw) (choosable M) IndexError);
    [reflexivity | | exact Hex].
  intros [policy k] s _. unfold choosable, Solver.init_state.
  destruct (m_isTerminal M s); cbn [orb]; [eauto |].
  destruct (m_getActions M s) as [| a acts] eqn:E; [reflexivity |].
  destruct (random_choice_in draw k (a :: acts)) as (b & -> & _);
    [discriminate | cbn [bind]; eauto].
Qed.

(** X14.  [policy_iteration] draws an action for every non-terminal state
    before anything else: when a non-terminal state of the model has an empty
    action list the call raises [IndexError], whatever the discount, the
    tolerance and the iteration budget. *)
Theorem policy_iteration_needs_an_action_per_state :
  forall (M : Model) (discount epsilon : float) (n : Z) (draw : nat -> nat),
    (exists s, In s (m_getStates M) /\ choosable M s = false) ->
    Solver.policy_iteration M discount n epsilon draw = Raise IndexError.
Proof.
  intros M discount epsilon n draw Hex. unfold Solver.policy_iteration.
  rewrite (init_policy_raises M draw Hex). reflexivity.
Qed.


Lemma policy_iteration_needs_an_action_per_state_witness :
  Solver.policy_iteration
    {| m_getStates := m_getStates reference;
       m_isTerminal := m_isTerminal reference;
       m_getRewards := m_getRewards reference;
       m_getActions := fun _ => [];
       m_getTransitions := m_getTransitions reference |}
    0.9%float 100 1e-4%float (fun _ => O)
  = Raise IndexError.
Proof.
  apply policy_iteration_needs_an_action_per_state.
  exists (0, 0). split; [vm_compute; auto | reflexivity].
Defined.

(** ** The printed policy grid *)

Lemma string_length_append (a b : string) :
  String.length (a ++ b) = (String.length a + String.length b)%nat.
Proof. induction a as [| ch a IH]; simpl; [reflexivity | rewrite IH; reflexivity]. Qed.

Lemma string_append_assoc (a b c : string) :
  ((a ++ b) ++ c)%string = (a ++ (b ++ c))%string.
Proof. induction a as [| ch a IH]; simpl; [reflexivity | rewrite IH; reflexivity]. Qed.

Lemma string_append_empty (a : string) : (a ++ "")%string = a.
Proof. induction a as [| ch a IH]; simpl; [reflexivity | rewrite IH; reflexivity]. Qed.

Lemma substring_skip (a b : string) (n m : nat) :
  substring (String.length a + n) m (a ++ b) = substring n m b.
Proof. induction a as [| ch a IH]; simpl; [reflexivity | exact IH]. Qed.

Lemma substring_prefix (a b : string) :
  substring 0 (String.length a) (a ++ b) = a.
Proof.
  induction a as [| ch a IH]; simpl.
  - destruct b; reflexivity.
  - rewrite IH. reflexivity.
Qed.

Lemma range_nth (n : Z) (i : nat) :
  (i < Z.to_nat n)%nat -> nth_error (range n) i = Some (Z.of_nat i).
Proof.
  intros H. unfold range. rewrite nth_error_map, nth_error_seq.
  destruct (Nat.ltb_spec i (Z.to_nat n)); [reflexivity | lia].
Qed.

Lemma range_length (n : Z) : List.length (range n) = Z.to_nat n.
Proof. unfold range. rewrite length_map, length_seq. reflexivity. Qed.

Section Rows.
Variable cell : Z -> string.
Hypothesis cell_length : forall c, String.length (cell c) = 5%nat.

(** A row is what was there before followed by one cell per column. *)
Lemma row_fold (cs : list Z) :
  forall acc,
    fold_left (fun row_str c => row_str ++ cell c)%string cs acc
    = (acc ++ fold_left (fun row_str c => row_str ++ cell c)%string cs "")%string.
Proof.
  induction cs as [| c cs IH]; intros acc; cbn [fold_left].
  - rewrite string_append_empty. reflexivity.
  - rewrite IH. rewrite (IH ("" ++ cell c)%string).
    cbn [append]. rewrite string_append_assoc. reflexivity.
Qed.

Lemma row_length (cs : list Z) :
  String.length (fold_left (fun row_str c => row_str ++ cell c)%string cs "")
  = (5 * List.length cs)%nat.
Proof.
  induction cs as [| c cs IH]; cbn [fold_left]; [reflexivity |].
  rewrite row_fold, string_length_append, IH. cbn [append List.length].
  rewrite cell_length. lia.
Qed.

Lemma row_cell (cs : list Z) :
  forall (j : nat) (c : Z),
    nth_error cs j = Some c ->
    substring (5 * j) 5
      (fold_left (fun row_str c => row_str ++ cell c)%string cs "")
    = cell c.
Proof.
  induction cs as [| x cs IH]; intros j c H; [destruct j; discriminate |].
  cbn [fold_left]. rewrite row_fold. cbn [append].
  destruct j as [| j].
  - inversion H; subst. change (5 * 0)%nat with 0%nat.
    rewrite <- (cell_length c). apply substring_prefix.
  - replace (5 * S j)%nat with (String.length (cell x) + 5 * j)%nat
      by (rewrite cell_length; lia).
    rewrite substring_skip. apply IH. exact H.
Qed.
End Rows.

Section Lines.
Variable row : Z -> string.

Lemma lines_fold (rs : list Z) :
  forall out,
    fold_left (fun out r => (out ++ [row r; ""%string])%list) rs out
    = (out ++ flat_map (fun r => [row r; ""%string]) rs)%list.
Proof.
  induction rs as [| r rs IH]; intros out; cbn [fold_left flat_map].
  - rewrite app_nil_r. reflexivity.
  - rewrite IH, <- app_assoc. reflexivity.
Qed.

Lemma lines_nth (rs : list Z) :
  forall (i : nat) (r : Z),
    nth_error rs i = Some r ->
    nth_error (flat_map (fun r => [row r; ""%string]) rs) (2 * i) = Some (row r)
    /\ nth_error (flat_map (fun r => [row r; ""%string]) rs) (2 * i + 1)
       = Some ""%string.
Proof.
  induction rs as [| x rs IH]; intros i r H; [destruct i; discriminate |].
  destruct i as [| i].
  - inversion H; subst. split; reflexivity.
  - replace (2 * S i)%nat with (S (S (2 * i))) by lia.
    cbn [flat_map app plus nth_error]. apply IH. exact H.
Qed.

Lemma lines_length (rs : list Z) :
  List.length (flat_map (fun r => [row r; ""%string]) rs)
  = (2 * List.length rs)%nat.
Proof.
  induction rs as [| x rs IH]; [reflexivity |].
  cbn [flat_map app List.length]. rewrite IH. lia.
Qed.
End Lines.

Lemma policy_cell_length (policy : Solver.Policy) (g : Gridworld.t) (s : State) :
  String.length (Main.policy_cell policy g s) = 5%nat.
Proof.
  unfold Main.policy_cell.
  destruct (mem_state s (Gridworld.wall_states g)); [reflexivity |].
  destruct (state_eqb s (Gridworld.goal_state g)); [reflexivity |].
  destruct (state_eqb s (Gridworld.trap_state g)); [reflexivity |].
  cbv zeta. unfold dict_get_default at 1, Main.action_symbols.
  destruct (dict_get_default state_eqb policy s None) as [a |];
    [| reflexivity].
  cbn [dict_find Solver.action_eqb].
  repeat match goal with
         | |- context [if ?b then _ else _] => destruct b; [reflexivity |]
         end.
  reflexivity.
Qed.

(** X15.  [print_policy] writes the heading and then, for each grid row, one
    line of five characters per column followed by an empty line: line
    [1 + 2 r] is row [r], and its characters [5 c .. 5 c + 4] are the cell of
    state [(r, c)]. *)
Theorem print_policy_layout :
  forall (policy : Solver.Policy) (g : Gridworld.t) (r c : nat),
    (r < Z.to_nat (Gridworld.height g))%nat ->
    (c < Z.to_nat (Gridworld.width g))%nat ->
    List.length (Main.print_policy policy g)
    = (1 + 2 * Z.to_nat (Gridworld.height g))%nat
    /\ nth_error (Main.print_policy policy g) 0 = Some "Optimal Policy:"
    /\ nth_error (Main.print_policy policy g) (2 + 2 * r) = Some ""
    /\ exists line,
         nth_error (Main.print_policy policy g) (1 + 2 * r) = Some line
         /\ String.length line = (5 * Z.to_nat (Gridworld.width g))%nat
         /\ substring (5 * c) 5 line
            = Main.policy_cell policy g (Z.of_nat r, Z.of_nat c).
Proof.
  intros policy g r c Hr Hc. unfold Main.print_policy.
  rewrite (lines_fold (Main.policy_row policy g)).
  destruct (lines_nth (Main.policy_row policy g) _ _ _
              (range_nth (Gridworld.height g) r Hr)) as (L1 & L2).
  split; [| split; [| split]].
  - cbn [app List.length]. rewrite lines_length, range_length. reflexivity.
  - reflexivity.
  - replace (2 + 2 * r)%nat with (S (2 * r + 1)) by lia. exact L2.
  - exists (Main.policy_row policy g (Z.of_nat r)).
    split; [exact L1 |]. unfold Main.policy_row. split.
    + rewrite (row_length (fun c => Main.policy_cell policy g (Z.of_nat r, c)))
        by (intros; apply policy_cell_length).
      rewrite range_length. reflexivity.
    + apply (row_cell (fun c => Main.policy_cell policy g (Z.of_nat r, c))).
      * intros; apply policy_cell_length.
      * apply range_nth. exact Hc.
Qed.

Lemma print_policy_layout_witness :
  exists line,
    nth_error
      (Main.print_policy [((0, 0), Some "East"); ((1, 0), Some "North")]
         Gridworld.init) 3 = Some line
    /\ substring 0 5 line = "  ^  ".
Proof.
  destruct (print_policy_layout
              [((0, 0), Some "East"); ((1, 0), Some "North")]
              Gridworld.init 1 0) as (_ & _ & _ & line & Hl & _ & Hc);
    [vm_compute; lia | vm_compute; lia |].
  exists line. split; [exact Hl | exact Hc].
Defined.

(** ** Running the program *)

(** X16.  Whichever algorithm is chosen on the command line, and in whatever
    order the state set is enumerated, the program writes its "Running ..."
    line and then ends with [KeyError]: neither the utilities nor the policy
    are printed. *)
Theorem main_prints_no_result :
  forall (format_utility : float -> string) (l : list State)
         (a : Main.algorithm) (draw : nat -> nat),
    enumerates l ->
    Main.run format_utility (reorder Gridworld.init l) a draw
    = (["Running " ++ Main.algorithm_name a ++ "..."], Raise KeyError).
Proof.
  intros format_utility l a draw Hl. unfold Main.run.
  change (gridworld_model (reorder Gridworld.init l)) with (ordered l).
  destruct a.
  - rewrite ordered_value_iteration_fails by exact Hl. reflexivity.
  - rewrite ordered_policy_iteration_fails by (exact Hl || lia). reflexivity.
Qed.

Lemma main_prints_no_result_witness :
  Main.main (fun _ => ""%string) Main.value_iteration (fun _ => O)
  = (["Running value_iteration..."], Raise KeyError).
Proof.
  apply (main_prints_no_result (fun _ => ""%string)
           (Gridworld.getStates Gridworld.init)).
  apply Permutation_refl.
Defined.

(** ** The discount parameter *)

(** Whether a lookup, a sweep or a scan raises depends on the keys of the
    table it reads, never on the numbers stored there, and so not on the
    discount that produced them. *)

Lemma agree_outcome {A B : Type} (R : A -> B -> Prop)
      (r : result A) (r' : result B) :
  agree R r r' -> outcome r = outcome r'.
Proof.
  destruct r, r'; simpl; intros H; try contradiction; congruence.
Qed.

Lemma agree_bind {A A' B B' : Type} (R : A -> A' -> Prop) (S : B -> B' -> Prop)
      (m : result A) (m' : result A') (k : A -> result B) (k' : A' -> result B') :
  agree R m m' ->
  (forall a a', R a a' -> agree S (k a) (k' a')) ->
  agree S (bind m k) (bind m' k').
Proof.
  destruct m, m'; simpl; intros H Hk; try contradiction; auto.
Qed.

Lemma agree_weaken {A B : Type} (R : A -> B -> Prop)
      (r : result A) (r' : result B) :
  agree R r r' -> agree (fun _ _ => True) r r'.
Proof. destruct r, r'; simpl; auto. Qed.

Lemma same_keys_refl {V : Type} (d : dict State V) : same_keys d d.
Proof. intros s. tauto. Qed.

Lemma same_keys_trans {V W X : Type} (d : dict State V) (d' : dict State W)
      (d'' : dict State X) :
  same_keys d d' -> same_keys d' d'' -> same_keys d d''.
Proof. intros H1 H2 s. rewrite (H1 s). apply H2. Qed.

Lemma same_keys_set {V W : Type} (d : dict State V) (d' : dict State W)
      (s : State) (v : V) (w : W) :
  same_keys d d' ->
  same_keys (dict_set state_eqb d s v) (dict_set state_eqb d' s w).
Proof.
  intros H t. destruct (state_eqb t s) eqn:E.
  - apply state_eqb_eq in E. subst t. rewrite !dict_find_set_same.
    split; discriminate.
  - apply state_eqb_neq in E.
    rewrite !dict_find_set_other by congruence. apply H.
Qed.

Lemma same_keys_get {V W : Type} (d : dict State V) (d' : dict State W)
      (s : State) :
  same_keys d d' ->
  agree (fun _ _ => True) (dict_get state_eqb d s) (dict_get state_eqb d' s).
Proof.
  intros H. unfold dict_get. specialize (H s).
  destruct (dict_find state_eqb d s), (dict_find state_eqb d' s); simpl; auto.
  - destruct H as [_ H]. discriminate (H eq_refl).
  - destruct H as [H _]. discriminate (H eq_refl).
Qed.

Lemma for_states_agree {A B : Type} (R : A -> B -> Prop)
      (body : A -> State -> result A) (body' : B -> State -> result B)
      (l : list State) :
  (forall a b s, In s l -> R a b -> agree R (body a s) (body' b s)) ->
  forall a b, R a b ->
              agree R (Solver.for_states body l a) (Solver.for_states body' l b).
Proof.
  induction l as [| x l IH]; intros Hb a b Hab; [exact Hab |].
  rewrite !for_states_cons. apply agree_bind with (R := R).
  - apply Hb; [left; reflexivity | exact Hab].
  - apply IH. intros a0 b0 s Hs. apply Hb. right; exact Hs.
Qed.

Section KeysOnly.
Variable M : Model.
Variables (U U' : Solver.Table).
Hypothesis keys : same_keys U U'.

Lemma accumulate_keys :
  forall (ts : list (value * value)) (q q' : float),
    agree (fun _ _ => True)
          (Solver.accumulate U ts q) (Solver.accumulate U' ts q').
Proof.
  induction ts as [| [prob next] ts IH]; intros q q'; cbn [Solver.accumulate];
    [exact I |].
  apply agree_bind with (R := fun _ _ => True).
  - destruct next; [reflexivity | apply same_keys_get; exact keys].
  - intros u u' _. destruct prob; cbn [py_mul bind]; [apply IH | reflexivity].
Qed.

Lemma q_value_keys (s : State) (a : option Action) :
  agree (fun _ _ => True)
        (Solver.q_value_of M U s a) (Solver.q_value_of M U' s a).
Proof.
  unfold Solver.q_value_of.
  destruct (m_getTransitions M s a); cbn [bind];
    [apply accumulate_keys | reflexivity].
Qed.

Lemma action_values_keys (s : State) :
  forall acts,
    agree (fun _ _ => True)
          (Solver.action_values M U s acts) (Solver.action_values M U' s acts).
Proof.
  induction acts as [| a acts IH]; cbn [Solver.action_values]; [exact I |].
  apply agree_bind with (R := fun _ _ => True); [apply q_value_keys |].
  intros q q' _.
  apply agree_bind with (R := fun _ _ => True); [exact IH |].
  intros; exact I.
Qed.

Lemma greedy_scan_keys (s : State) :
  forall acts b b' q q',
    agree (fun _ _ => True)
          (Solver.greedy_scan M U s acts b q)
          (Solver.greedy_scan M U' s acts b' q').
Proof.
  induction acts as [| a acts IH]; intros b b' q q';
    cbn [Solver.greedy_scan]; [exact I |].
  apply agree_bind with (R := fun _ _ => True); [apply q_value_keys |].
  intros x x' _. destruct (py_gt x q), (py_gt x' q'); apply IH.
Qed.

Lemma greedy_keys (s : State) :
  agree (fun _ _ => True) (Solver.greedy M U s) (Solver.greedy M U' s).
Proof. apply greedy_scan_keys. Qed.

Lemma vi_state_keys (d d' : float) (acc acc' : Solver.Table * float)
      (s : State) :
  same_keys (fst acc) (fst acc') ->
  agree (fun a b => same_keys (fst a) (fst b))
        (Solver.vi_state M d U acc s) (Solver.vi_state M d' U' acc' s).
Proof.
  destruct acc as [Un dl], acc' as [Un' dl']. cbn [fst]. intros H.
  unfold Solver.vi_state.
  destruct (m_isTerminal M s); [apply same_keys_set; exact H |].
  apply agree_bind with (R := fun _ _ => True); [apply action_values_keys |].
  intros qs qs' _. cbv zeta. rewrite !dict_get_set_same. cbn [bind].
  apply agree_bind with (R := fun _ _ => True);
    [apply same_keys_get; exact keys |].
  intros old old' _. apply same_keys_set. exact H.
Qed.

Lemma vi_sweep_keys (d d' : float) :
  agree (fun a b => same_keys (fst a) (fst b))
        (Solver.vi_sweep M d U) (Solver.vi_sweep M d' U').
Proof.
  unfold Solver.vi_sweep.
  apply (for_states_agree (fun a b => same_keys (fst a) (fst b))).
  - intros a b s _ Hab. apply vi_state_keys. exact Hab.
  - exact keys.
Qed.

Lemma extraction_keys (l : list State) (p p' : Solver.Policy) :
  agree (fun _ _ => True)
        (Solver.for_states (Solver.extract_state M U) l p)
        (Solver.for_states (Solver.extract_state M U') l p').
Proof.
  apply (for_states_agree (fun _ _ => True)); [| exact I].
  intros a b s _ _. unfold Solver.extract_state.
  destruct (m_isTerminal M s); [exact I |].
  apply agree_bind with (R := fun _ _ => True); [apply greedy_keys |].
  intros; exact I.
Qed.

Lemma eval_state_keys (d d' : float) (policy : Solver.Policy)
      (acc acc' : Solver.Table * float) (s : State) :
  same_keys (fst acc) (fst acc') ->
  agree (fun a b => same_keys (fst a) (fst b))
        (Solver.eval_state M d policy U acc s)
        (Solver.eval_state M d' policy U' acc' s).
Proof.
  destruct acc as [Un dl], acc' as [Un' dl']. cbn [fst]. intros H.
  unfold Solver.eval_state.
  destruct (m_isTerminal M s); [apply same_keys_set; exact H |].
  destruct (dict_get state_eqb policy s) as [a | e]; [| reflexivity].
  cbn [bind].
  apply agree_bind with (R := fun _ _ => True); [apply q_value_keys |].
  intros q q' _. cbv zeta. rewrite !dict_get_set_same. cbn [bind].
  apply agree_bind with (R := fun _ _ => True);
    [apply same_keys_get; exact keys |].
  intros old old' _. apply same_keys_set. exact H.
Qed.

Lemma eval_sweep_keys (d d' : float) (policy : Solver.Policy) :
  agree (fun a b => same_keys (fst a) (fst b))
        (Solver.eval_sweep M d policy U) (Solver.eval_sweep M d' policy U').
Proof.
  unfold Solver.eval_sweep.
  apply (for_states_agree (fun a b => same_keys (fst a) (fst b))).
  - intros a b s _ Hab. apply eval_state_keys. exact Hab.
  - exact keys.
Qed.

Lemma improve_keys (policy : Solver.Policy) :
  agree (fun _ _ => True)
        (Solver.improve M U policy) (Solver.improve M U' policy).
Proof.
  unfold Solver.improve.
  apply agree_weaken with (R := fun a b : Solver.Policy * bool =>
                                  same_keys (fst a) (fst b)).
  apply (for_states_agree
           (fun a b : Solver.Policy * bool => same_keys (fst a) (fst b)));
    [| apply same_keys_refl].
  intros [p f] [p' f'] s _ Hab. cbn [fst] in Hab.
  unfold Solver.improve_state.
  destruct (m_isTerminal M s); [exact Hab |].
  apply agree_bind with (R := fun _ _ => True);
    [apply same_keys_get; exact Hab |].
  intros old old' _.
  apply agree_bind with (R := fun _ _ => True); [apply greedy_keys |].
  intros best best' _. cbv zeta.
  destruct (negb (Solver.action_eqb old best)),
           (negb (Solver.action_eqb old' best'));
    apply same_keys_set; exact Hab.
Qed.
End KeysOnly.

(** A completed sweep leaves the keys of a table that has every state
    as they were. *)

Lemma zero_table_covers (M : Model) :
  covers M (Solver.zero_table (m_getStates M)).
Proof.
  intros s Hs. rewrite zero_table_find.
  apply mem_state_In in Hs. rewrite Hs. discriminate.
Qed.

Lemma covers_same_keys (M : Model) (U U' : Solver.Table) :
  covers M U -> same_keys U U' -> covers M U'.
Proof. intros Hc K s Hs H. apply (Hc s Hs). apply K. exact H. Qed.

Lemma vi_sweep_same_keys (M : Model) (d : float) (U U1 : Solver.Table)
      (delta : float) :
  covers M U -> Solver.vi_sweep M d U = Ok (U1, delta) -> same_keys U U1.
Proof.
  intros Hc H s. unfold Solver.vi_sweep in H.
  destruct (sweep_invariant M d U _ _ _ _ _ H) as (A & B & _).
  destruct (mem_state s (m_getStates M)) eqn:E.
  - apply mem_state_In in E. destruct (A s E) as (v & _ & Hf). rewrite Hf.
    split; [intros H0; destruct (Hc s E H0) | discriminate].
  - rewrite B; [tauto |]. intros Hin. apply mem_state_In in Hin. congruence.
Qed.

Lemma eval_sweep_same_keys (M : Model) (d : float) (policy : Solver.Policy)
      (U U1 : Solver.Table) (delta : float) :
  covers M U -> Solver.eval_sweep M d policy U = Ok (U1, delta) ->
  same_keys U U1.
Proof.
  intros Hc H s. unfold Solver.eval_sweep in H.
  destruct (eval_sweep_invariant M d policy U _ _ _ _ _ H) as (A & B & _).
  destruct (mem_state s (m_getStates M)) eqn:E.
  - apply mem_state_In in E. destruct (A s E) as (v & _ & Hf). rewrite Hf.
    split; [intros H0; destruct (Hc s E H0) | discriminate].
  - rewrite B; [tauto |]. intros Hin. apply mem_state_In in Hin. congruence.
Qed.

Lemma outcome_bind_ok {A B : Type} (m : result A) (f : A -> B) :
  outcome (x <- m ;; Ok (f x)) = outcome m.
Proof. destruct m; reflexivity. Qed.

Section NonZeroDiscount.
Variable M : Model.
Variables (d eps : float).
Hypothesis d_non_zero : PrimFloat.eqb d 0%float = false.

(** Once a sweep has completed, every later one completes too, and the
    stopping test cannot fail: the loop returns. *)
Lemma vi_loop_total :
  forall (n : nat) (U : Solver.Table),
    covers M U -> outcome (Solver.vi_sweep M d U) = None ->
    exists U', Solver.vi_loop M d eps n U = Ok U' /\ same_keys U U'.
Proof.
  induction n as [| n IH]; intros U Hc Ho.
  - exists U. split; [reflexivity | apply same_keys_refl].
  - cbn [Solver.vi_loop].
    destruct (Solver.vi_sweep M d U) as [[U1 delta] | e] eqn:E;
      [| discriminate].
    cbn [bind]. unfold Solver.threshold, py_div. rewrite d_non_zero.
    cbn [bind].
    pose proof (vi_sweep_same_keys M d U U1 delta Hc E) as K.
    destruct (py_lt delta (eps * (1 - d) / d)); [eauto |].
    destruct (IH U1) as (U' & HU' & K').
    + eapply covers_same_keys; eassumption.
    + pose proof (agree_outcome _ _ _ (vi_sweep_keys M U U1 K d d)) as O.
      rewrite E in O. symmetry. exact O.
    + exists U'. split; [exact HU' | eapply same_keys_trans; eassumption].
Qed.

Lemma eval_loop_total (policy : Solver.Policy) :
  forall (n : nat) (U : Solver.Table),
    covers M U -> outcome (Solver.eval_sweep M d policy U) = None ->
    exists U', Solver.eval_loop M d eps policy n U = Ok U' /\ same_keys U U'.
Proof.
  induction n as [| n IH]; intros U Hc Ho.
  - exists U. split; [reflexivity | apply same_keys_refl].
  - cbn [Solver.eval_loop].
    destruct (Solver.eval_sweep M d policy U) as [[U1 delta] | e] eqn:E;
      [| discriminate].
    cbn [bind]. unfold Solver.threshold, py_div. rewrite d_non_zero.
    cbn [bind].
    pose proof (eval_sweep_same_keys M d policy U U1 delta Hc E) as K.
    destruct (py_lt delta (eps * (1 - d) / d)); [eauto |].
    destruct (IH U1) as (U' & HU' & K').
    + eapply covers_same_keys; eassumption.
    + pose proof (agree_outcome _ _ _ (eval_sweep_keys M U U1 K d d policy)) as O.
      rewrite E in O. symmetry. exact O.
    + exists U'. split; [exact HU' | eapply same_keys_trans; eassumption].
Qed.
End NonZeroDiscount.

(** How [value_iteration] ends when it makes at least one sweep. *)
Lemma value_iteration_outcome (M : Model) (d d' eps : float) (n : Z) :
  1 <= n ->
  outcome (Solver.value_iteration M d n eps)
  = match outcome (Solver.vi_sweep M d' (Solver.zero_table (m_getStates M))) with
    | Some e => Some e
    | None =>
        if PrimFloat.eqb d 0%float then Some ZeroDivisionError
        else outcome (Solver.for_states
                        (Solver.extract_state M
                           (Solver.zero_table (m_getStates M)))
                        (m_getStates M) [])
    end.
Proof.
  intros Hn.
  rewrite <- (agree_outcome _ _ _
                (vi_sweep_keys M _ _ (same_keys_refl _) d d')).
  unfold Solver.value_iteration.
  destruct (Z.to_nat n) as [| k] eqn:En; [lia |].
  destruct (Solver.vi_sweep M d (Solver.zero_table (m_getStates M)))
    as [[U1 delta] | e] eqn:E; cbn [outcome].
  - destruct (PrimFloat.eqb d 0%float) eqn:Hd.
    + cbn [Solver.vi_loop]. rewrite E. cbn [bind].
      unfold Solver.threshold, py_div. rewrite Hd. reflexivity.
    + destruct (vi_loop_total M d eps Hd (S k) _ (zero_table_covers M))
        as (U' & HU' & K); [rewrite E; reflexivity |].
      rewrite HU'. cbn [bind].
      rewrite (outcome_bind_ok _ (fun policy => (policy, U'))).
      symmetry. apply (agree_outcome (fun _ _ => True)).
      apply extraction_keys. exact K.
  - cbn [Solver.vi_loop]. rewrite E. reflexivity.
Qed.

(** How the first round of [policy_iteration] ends. *)
Lemma policy_iteration_first_round (M : Model) (d d' eps : float) (n : Z)
      (draw : nat -> nat) (p0 : Solver.Policy) :
  1 <= n ->
  Solver.init_policy M draw = Ok p0 ->
  match outcome (Solver.eval_sweep M d' p0 (Solver.zero_table (m_getStates M))) with
  | Some e => Solver.policy_iteration M d n eps draw = Raise e
  | None =>
      if PrimFloat.eqb d 0%float
      then Solver.policy_iteration M d n eps draw = Raise ZeroDivisionError
      else
        match outcome (Solver.improve M (Solver.zero_table (m_getStates M)) p0) with
        | Some e => Solver.policy_iteration M d n eps draw = Raise e
        | None =>
            exists U p stable,
              Solver.eval_loop M d eps p0 (Z.to_nat n)
                (Solver.zero_table (m_getStates M)) = Ok U
              /\ Solver.improve M U p0 = Ok (p, stable)
              /\ Solver.policy_iteration M d n eps draw
                 = (if stable then Ok (p, U)
                    else Solver.pi_loop M d n eps (Nat.pred (Z.to_nat n)) p U)
        end
  end.
Proof.
  intros Hn Hp.
  rewrite <- (agree_outcome _ _ _
                (eval_sweep_keys M _ _ (same_keys_refl _) d d' p0)).
  unfold Solver.policy_iteration. rewrite Hp. cbn [bind].
  destruct (Z.to_nat n) as [| k] eqn:En; [lia |].
  cbn [Solver.pi_loop Nat.pred]. rewrite En.
  destruct (Solver.eval_sweep M d p0 (Solver.zero_table (m_getStates M)))
    as [[U1 delta] | e] eqn:E; cbn [outcome].
  - destruct (PrimFloat.eqb d 0%float) eqn:Hd.
    + cbn [Solver.eval_loop]. rewrite E. cbn [bind].
      unfold Solver.threshold, py_div. rewrite Hd. reflexivity.
    + destruct (eval_loop_total M d eps Hd p0 (S k) _ (zero_table_covers M))
        as (U & HU & K); [rewrite E; reflexivity |].
      rewrite HU. cbn [bind].
      pose proof (agree_outcome _ _ _ (improve_keys M _ _ K p0)) as O.
      destruct (Solver.improve M (Solver.zero_table (m_getStates M)) p0)
        as [r0 | e0]; cbn [outcome] in O |- *.
      * destruct (Solver.improve M U p0) as [[p st] | e1] eqn:Ei;
          [| discriminate O].
        exists U, p, st. cbn [bind]. auto.
      * destruct (Solver.improve M U p0) as [r1 | e1]; [discriminate O |].
        inversion O. reflexivity.
  - cbn [Solver.eval_loop]. rewrite E. reflexivity.
Qed.

(** C7, counterexample.  Discounts of 1.5 and of -0.5 lie outside (0,1), and
    are taken without complaint: on the reference grid [policy_iteration]
    with no iteration returns its initial policy and the zero table, and on
    the grid with documented transition pairs [value_iteration] runs its
    hundred sweeps and returns. *)
Lemma out_of_range_discount_is_accepted :
  py_lt 1%float 1.5%float = true
  /\ is_ok (Solver.policy_iteration reference 1.5%float 0 1e-4%float (fun _ => O))
     = true
  /\ is_ok (Solver.value_iteration (documented Gridworld.init) 1.5%float 100
              1e-4%float) = true
  /\ py_lt (-0.5)%float 0%float = true
  /\ is_ok (Solver.value_iteration (documented Gridworld.init) (-0.5)%float 100
              1e-4%float) = true
  /\ is_ok (Solver.policy_iteration (documented Gridworld.init) (-0.5)%float 3
              1e-4%float (fun _ => O)) = true.
Proof. repeat split; vm_compute; reflexivity. Qed.

(** C7, amended.  Neither solver validates [discount]: no value is rejected
    at entry.  With [max_iterations = 0] the discount is never used and the
    result is the same for every discount.  With at least one iteration the
    discount enters the arithmetic of the first sweep but cannot stop it:
    whether that sweep completes, and the exception it raises if it does not,
    are the same for every discount, and the call raises that exception.
    After a completed first sweep the stopping threshold raises
    [ZeroDivisionError] for a zero discount and is computed for every other
    one, in or out of (0,1).  From there [value_iteration] ends the same way,
    by a return or by the same exception, for every non-zero discount; and
    [policy_iteration] completes its first evaluation loop and reaches the
    improvement step, which fails or not whatever the discount. *)
Theorem discount_is_not_validated :
  forall (M : Model) (d eps : float) (draw : nat -> nat),
    (forall d' eps',
        Solver.policy_iteration M d 0 eps draw
        = Solver.policy_iteration M d' 0 eps' draw)
    /\ (forall d' eps',
        Solver.value_iteration M d 0 eps = Solver.value_iteration M d' 0 eps')
    /\ (PrimFloat.eqb d 0%float = false ->
        Solver.threshold d eps = Ok (eps * (1 - d) / d)%float)
    /\ (forall n r,
        1 <= n -> PrimFloat.eqb d 0%float = true ->
        Solver.vi_sweep M d (Solver.zero_table (m_getStates M)) = Ok r ->
        Solver.value_iteration M d n eps = Raise ZeroDivisionError)
    /\ (forall n policy r,
        1 <= n -> PrimFloat.eqb d 0%float = true ->
        Solver.init_policy M draw = Ok policy ->
        Solver.eval_sweep M d policy (Solver.zero_table (m_getStates M)) = Ok r ->
        Solver.policy_iteration M d n eps draw = Raise ZeroDivisionError)
    /\ (forall n d',
        1 <= n ->
        outcome (Solver.value_iteration M d n eps)
        = match outcome (Solver.vi_sweep M d'
                           (Solver.zero_table (m_getStates M))) with
          | Some e => Some e
          | None =>
              if PrimFloat.eqb d 0%float then Some ZeroDivisionError
              else outcome (Solver.for_states
                              (Solver.extract_state M
                                 (Solver.zero_table (m_getStates M)))
                              (m_getStates M) [])
          end)
    /\ (forall n d' eps',
        PrimFloat.eqb d 0%float = false ->
        PrimFloat.eqb d' 0%float = false ->
        outcome (Solver.value_iteration M d n eps)
        = outcome (Solver.value_iteration M d' n eps'))
    /\ (forall n d' p0,
        1 <= n ->
        Solver.init_policy M draw = Ok p0 ->
        match outcome (Solver.eval_sweep M d' p0
                         (Solver.zero_table (m_getStates M))) with
        | Some e => Solver.policy_iteration M d n eps draw = Raise e
        | None =>
            if PrimFloat.eqb d 0%float
            then Solver.policy_iteration M d n eps draw = Raise ZeroDivisionError
            else
              match outcome (Solver.improve M
                               (Solver.zero_table (m_getStates M)) p0) with
              | Some e => Solver.policy_iteration M d n eps draw = Raise e
              | None =>
                  exists U p stable,
                    Solver.eval_loop M d eps p0 (Z.to_nat n)
                      (Solver.zero_table (m_getStates M)) = Ok U
                    /\ Solver.improve M U p0 = Ok (p, stable)
                    /\ Solver.policy_iteration M d n eps draw
                       = (if stable then Ok (p, U)
                          else Solver.pi_loop M d n eps
                                 (Nat.pred (Z.to_nat n)) p U)
              end
        end).
Proof.
  intros M d eps draw.
  split; [intros; reflexivity |].
  split; [intros; reflexivity |].
  split.
  { intros Hd. unfold Solver.threshold, py_div. rewrite Hd. reflexivity. }
  split.
  { intros n [U' delta] Hn Hd Hs. unfold Solver.value_iteration.
    destruct (Z.to_nat n) as [| k] eqn:E; [lia |].
    cbn [Solver.vi_loop]. rewrite Hs. cbn [bind].
    unfold Solver.threshold, py_div. rewrite Hd. reflexivity. }
  split.
  { intros n policy [U' delta] Hn Hd Hp Hs. unfold Solver.policy_iteration.
    rewrite Hp. cbn [bind].
    destruct (Z.to_nat n) as [| k] eqn:E; [lia |].
    cbn [Solver.pi_loop]. rewrite E. cbn [Solver.eval_loop].
    rewrite Hs. cbn [bind].
    unfold Solver.threshold, py_div. rewrite Hd. reflexivity. }
  split.
  { intros n d' Hn. apply value_iteration_outcome. exact Hn. }
  split.
  { intros n d' eps' Hd Hd'. destruct (Z_le_gt_dec 1 n) as [Hn | Hn].
    - rewrite (value_iteration_outcome M d d eps n Hn),
              (value_iteration_outcome M d' d eps' n Hn), Hd, Hd'.
      reflexivity.
    - unfold Solver.value_iteration.
      replace (Z.to_nat n) with O by lia. reflexivity. }
  intros n d' p0 Hn Hp. apply policy_iteration_first_round; assumption.
Qed.

Lemma discount_is_not_validated_witness :
  Solver.value_iteration (documented Gridworld.init) 0%float 1 1e-4%float
  = Raise ZeroDivisionError
  /\ Solver.policy_iteration (documented Gridworld.init) 0%float 1 1e-4%float
       (fun _ => O)
     = Raise ZeroDivisionError
  /\ Solver.threshold 1.5%float 1e-4%float
     = Ok (1e-4 * (1 - 1.5) / 1.5)%float
  /\ outcome (Solver.value_iteration (documented Gridworld.init) (-0.5)%float
                100 1e-4%float)
     = outcome (Solver.value_iteration (documented Gridworld.init) 0.9%float
                  100 1e-4%float)
  /\ outcome (Solver.value_iteration reference (-0.5)%float 100 1e-4%float)
     = Some KeyError
  /\ exists U p stable,
       Solver.eval_loop (documented Gridworld.init) (-0.5)%float 1e-4%float
         (map (fun s => (s, if Gridworld.isTerminal Gridworld.init s
                            then None else Some "North"))
              (Gridworld.getStates Gridworld.init))
         (Z.to_nat 3) (Solver.zero_table (Gridworld.getStates Gridworld.init))
       = Ok U
       /\ Solver.improve (documented Gridworld.init) U
            (map (fun s => (s, if Gridworld.isTerminal Gridworld.init s
                               then None else Some "North"))
                 (Gridworld.getStates Gridworld.init))
          = Ok (p, stable)
       /\ Solver.policy_iteration (documented Gridworld.init) (-0.5)%float 3
            1e-4%float (fun _ => O)
          = (if stable then Ok (p, U)
             else Solver.pi_loop (documented Gridworld.init) (-0.5)%float 3
                    1e-4%float (Nat.pred (Z.to_nat 3)) p U).
Proof.
  destruct (discount_is_not_validated (documented Gridworld.init) 0%float
              1e-4%float (fun _ => O)) as (_ & _ & _ & Hv & Hp & _).
  destruct (discount_is_not_validated (documented Gridworld.init) 1.5%float
              1e-4%float (fun _ => O)) as (_ & _ & Ht & _).
  destruct (discount_is_not_validated (documented Gridworld.init) (-0.5)%float
              1e-4%float (fun _ => O)) as (_ & _ & _ & _ & _ & _ & Hsame & Hpi).
  destruct (discount_is_not_validated reference (-0.5)%float
              1e-4%float (fun _ => O)) as (_ & _ & _ & _ & _ & Hout & _).
  split; [| split; [| split; [| split; [| split]]]].
  - eapply Hv; [lia | reflexivity | vm_compute; reflexivity].
  - eapply Hp; [lia | reflexivity | vm_compute; reflexivity
                | vm_compute; reflexivity].
  - apply Ht. reflexivity.
  - apply Hsame; reflexivity.
  - rewrite (Hout 100 0.9%float) by lia. vm_compute. reflexivity.
  - pose proof (Hpi 3 0.9%float
                  (map (fun s => (s, if Gridworld.isTerminal Gridworld.init s
                                     then None else Some "North"))
                       (Gridworld.getStates Gridworld.init))) as W.
    assert (E1 : outcome
                   (Solver.eval_sweep (documented Gridworld.init) 0.9%float
                      (map (fun s => (s, if Gridworld.isTerminal Gridworld.init s
                                         then None else Some "North"))
                           (Gridworld.getStates Gridworld.init))
                      (Solver.zero_table
                         (m_getStates (documented Gridworld.init))))
                 = None) by (vm_compute; reflexivity).
    assert (E2 : outcome
                   (Solver.improve (documented Gridworld.init)
                      (Solver.zero_table
                         (m_getStates (documented Gridworld.init)))
                      (map (fun s => (s, if Gridworld.isTerminal Gridworld.init s
                                         then None else Some "North"))
                           (Gridworld.getStates Gridworld.init)))
                 = None) by (vm_compute; reflexivity).
    rewrite E1, E2 in W.
    apply W; [lia | vm_compute; reflexivity].
Defined.
